(** * WeatherOSC: UK city weather (Open-Meteo) republished over OSC

    A shallow embedding of [uk_weather_osc.py] and the properties of its
    poll / fetch / transform / publish cycle.

    Python values are modelled as a small universe [pyval]; Python floats are
    IEEE-754 binary64 numbers, taken from the standard library's [SpecFloat]
    (precision 53, emax 1024); exceptions are explicit ([result]); the Tk
    application object is a record that the methods thread through a small
    state-and-exception monad. *)

From Stdlib Require Import ZArith List String Ascii Bool Lia.
From Stdlib Require Import SpecFloat DecimalString QArith Qround.
#[local] Set Warnings "-register-all".
Import ListNotations.
Local Open Scope string_scope.
Local Open Scope Z_scope.

(** ** Python floats: IEEE-754 binary64 *)

Module PyFloat.

Definition prec : Z := 53.
Definition emax : Z := 1024.

Definition float := spec_float.

Definition add : float -> float -> float := SFadd prec emax.
Definition div : float -> float -> float := SFdiv prec emax.
Definition valid : float -> bool := valid_binary prec emax.

Definition is_finite (x : float) : bool :=
  match x with
  | S754_zero _ | S754_finite _ _ _ => true
  | S754_infinity _ | S754_nan => false
  end.

Definition is_zero (x : float) : bool :=
  match x with S754_zero _ => true | _ => false end.

Definition is_negative (x : float) : bool :=
  match x with
  | S754_zero s | S754_infinity s | S754_finite s _ _ => s
  | S754_nan => false
  end.

(** [m * 2^e], correctly rounded. *)
Definition of_scaled (m e : Z) : float := binary_normalize prec emax m e false.

(** The float nearest to an integer. *)
Definition of_Z (z : Z) : float := of_scaled z 0.

(** A decimal literal [n / 10^k] with [|n| < 2^53] and [10^k < 2^53]: both
    are exact floats, so the IEEE quotient is the correctly rounded value of
    the literal. *)
Definition dec (n : Z) (k : nat) : float := div (of_Z n) (of_Z (10 ^ Z.of_nat k)).

(** C [fmod x y]: the exact remainder of [|x|] by [|y|], with the sign of
    [x].  The remainder is always representable, so the final rounding
    changes nothing. *)
Definition fmod (x y : float) : float :=
  match x, y with
  | S754_nan, _ | _, S754_nan => S754_nan
  | S754_infinity _, _ => S754_nan
  | _, S754_zero _ => S754_nan
  | S754_zero _, _ => x
  | S754_finite _ _ _, S754_infinity _ => x
  | S754_finite sx mx ex, S754_finite _ my ey =>
      let ez := Z.min ex ey in
      let X := Z.shiftl (Zpos mx) (ex - ez) in
      let Y := Z.shiftl (Zpos my) (ey - ez) in
      binary_normalize prec emax (cond_Zopp sx (X mod Y)) ez sx
  end.

(** [int(x)]: truncation toward zero; [None] where Python raises
    ([ValueError] on NaN, [OverflowError] on an infinity). *)
Definition trunc (x : float) : option Z :=
  match x with
  | S754_zero _ => Some 0
  | S754_finite s m e => Some (cond_Zopp s (Z.shiftl (Zpos m) e))
  | S754_infinity _ | S754_nan => None
  end.

(** [format(x, ".<d>f")] for a float: the exact binary value rounded
    half-to-even to [d] decimals. *)
Definition digits_of (n : Z) : string := NilZero.string_of_uint (N.to_uint (Z.to_N n)).

Definition zero_pad (width : nat) (s : string) : string :=
  String.concat "" (repeat "0" (width - String.length s)%nat) ++ s.

Definition round_half_even (num den : Z) : Z :=
  let q := num / den in
  let r := num mod den in
  match Z.compare (2 * r) den with
  | Lt => q
  | Gt => q + 1
  | Eq => if Z.even q then q else q + 1
  end.

Definition fixed_digits (d : nat) (scaled : Z) : string :=
  let p := 10 ^ Z.of_nat d in
  match d with
  | O => digits_of scaled
  | _ => digits_of (scaled / p) ++ "." ++ zero_pad d (digits_of (scaled mod p))
  end.

Definition format_f (d : nat) (x : float) : string :=
  match x with
  | S754_nan => "nan"
  | S754_infinity s => if s then "-inf" else "inf"
  | S754_zero s => (if s then "-" else "") ++ fixed_digits d 0
  | S754_finite s m e =>
      let p := 10 ^ Z.of_nat d in
      let scaled :=
        if 0 <=? e then Zpos m * 2 ^ e * p
        else round_half_even (Zpos m * p) (2 ^ (- e)) in
      (if s then "-" else "") ++ fixed_digits d scaled
  end.

End PyFloat.

(** ** Python values, exceptions and the operators the program uses *)

Inductive exn_class :=
  | ConnectionError | ReadTimeout | HTTPError | JSONDecodeError
  | AttributeError | TypeError | ValueError | OverflowError
  | ZeroDivisionError | IndexError | TclError | OSError.

(** An exception: its class and [str(e)]. *)
Record exn := Exn { exn_cls : exn_class; exn_msg : string }.

Inductive result (A : Type) :=
  | Return (a : A)
  | Raise (e : exn).
Arguments Return {A} a.
Arguments Raise {A} e.

Definition raise {A} (c : exn_class) : result A := Raise (Exn c "").

Definition rbind {A B} (c : result A) (k : A -> result B) : result B :=
  match c with
  | Return a => k a
  | Raise e => Raise e
  end.

Declare Scope result_scope.
Delimit Scope result_scope with result.
Notation "x <- c ;; k" := (rbind c (fun x => k))
  (at level 61, c at next level, right associativity) : result_scope.

(** What [resp.json()] can return, and so what a reading's fields can hold. *)
Inductive pyval :=
  | PNone
  | PBool (b : bool)
  | PInt (z : Z)
  | PFloat (f : PyFloat.float)
  | PStr (s : string)
  | PList (l : list pyval)
  | PDict (d : list (string * pyval)).

Module Py.
Local Open Scope result_scope.

(** Python's numeric tower as far as the program meets it: [bool] is a
    subclass of [int]. *)
Inductive num := NInt (z : Z) | NFloat (f : PyFloat.float).

Definition as_num (v : pyval) : option num :=
  match v with
  | PBool b => Some (NInt (if b then 1 else 0))
  | PInt z => Some (NInt z)
  | PFloat f => Some (NFloat f)
  | _ => None
  end.

(** [float(z)] for an int: correctly rounded, [OverflowError] when too
    large for a double. *)
Definition float_of_int (z : Z) : result PyFloat.float :=
  let f := PyFloat.of_Z z in
  if PyFloat.is_finite f then Return f else raise OverflowError.

Definition to_float (n : num) : result PyFloat.float :=
  match n with
  | NInt z => float_of_int z
  | NFloat f => Return f
  end.

(** [float_rem] of CPython: C [fmod], then the sign of the divisor. *)
Definition float_rem (vx wx : PyFloat.float) : result PyFloat.float :=
  if PyFloat.is_zero wx then raise ZeroDivisionError
  else
    let md := PyFloat.fmod vx wx in
    if PyFloat.is_zero md then Return (S754_zero (PyFloat.is_negative wx))
    else if negb (Bool.eqb (PyFloat.is_negative wx) (PyFloat.is_negative md))
         then Return (PyFloat.add md wx)
         else Return md.

(** [a % b] on numbers.  A [str] left operand (printf-style formatting)
    never yields a number; the program only ever goes on to divide the
    result, so it is folded into the [TypeError] that follows. *)
Definition mod_ (a b : pyval) : result pyval :=
  match as_num a, as_num b with
  | Some (NInt x), Some (NInt y) =>
      if y =? 0 then raise ZeroDivisionError else Return (PInt (x mod y))
  | Some x, Some y =>
      fx <- to_float x ;; fy <- to_float y ;;
      r <- float_rem fx fy ;; Return (PFloat r)
  | _, _ => raise TypeError
  end.

(** [a / b]: true division, always a float. *)
Definition truediv (a b : pyval) : result pyval :=
  match as_num a, as_num b with
  | Some x, Some y =>
      fx <- to_float x ;; fy <- to_float y ;;
      if PyFloat.is_zero fy then raise ZeroDivisionError
      else Return (PFloat (PyFloat.div fx fy))
  | _, _ => raise TypeError
  end.

(** [a + b] on numbers. *)
Definition add (a b : pyval) : result pyval :=
  match as_num a, as_num b with
  | Some (NInt x), Some (NInt y) => Return (PInt (x + y))
  | Some x, Some y =>
      fx <- to_float x ;; fy <- to_float y ;;
      Return (PFloat (PyFloat.add fx fy))
  | _, _ => raise TypeError
  end.

(** [int(v)] on numbers. *)
Definition int (v : pyval) : result Z :=
  match as_num v with
  | Some (NInt z) => Return z
  | Some (NFloat f) =>
      match PyFloat.trunc f with
      | Some z => Return z
      | None =>
          match f with
          | S754_nan => raise ValueError
          | _ => raise OverflowError
          end
      end
  | None => raise TypeError
  end.

(** [float(v)] on numbers. *)
Definition float (v : pyval) : result PyFloat.float :=
  match as_num v with
  | Some n => to_float n
  | None => raise TypeError
  end.

(** [format(v, ".<d>f")], as an f-string field does it. *)
Definition format_f (d : nat) (v : pyval) : result string :=
  match as_num v with
  | Some n => f <- to_float n ;; Return (PyFloat.format_f d f)
  | None => match v with PStr _ => raise ValueError | _ => raise TypeError end
  end.

(** [l[i]] on a list, negative indices counting from the end. *)
Definition index {A} (l : list A) (i : Z) : result A :=
  let n := Z.of_nat (List.length l) in
  let j := if i <? 0 then i + n else i in
  if (0 <=? j) && (j <? n) then
    match nth_error l (Z.to_nat j) with
    | Some x => Return x
    | None => raise IndexError
    end
  else raise IndexError.

(** Truth value, for [x or y]. *)
Definition truthy (v : pyval) : bool :=
  match v with
  | PNone => false
  | PBool b => b
  | PInt z => negb (z =? 0)
  | PFloat f => negb (PyFloat.is_zero f)
  | PStr s => negb (String.eqb s "")
  | PList l => match l with [] => false | _ => true end
  | PDict d => match d with [] => false | _ => true end
  end.

Definition is_none (v : pyval) : bool :=
  match v with PNone => true | _ => false end.

Fixpoint lookup {A} (k : string) (d : list (string * A)) : option A :=
  match d with
  | [] => None
  | (k', v) :: d' => if String.eqb k k' then Some v else lookup k d'
  end.

(** [obj.get(key, default)]: a dict method; on anything else the attribute
    lookup raises. *)
Definition get (obj : pyval) (key : string) (default : pyval) : result pyval :=
  match obj with
  | PDict d => match lookup key d with Some v => Return v | None => Return default end
  | _ => raise AttributeError
  end.

End Py.

(** ** The program: constants *)

Record City := { name : string; slug : string; lat : PyFloat.float; lon : PyFloat.float }.

Definition mk_city (n s : string) (la lo : Z) : City :=
  {| name := n; slug := s; lat := PyFloat.dec la 5; lon := PyFloat.dec lo 5 |}.

Definition CITIES : list City :=
  [ mk_city "London"     "london"     5150850 (-12574);
    mk_city "Manchester" "manchester" 5348095 (-223743);
    mk_city "Birmingham" "birmingham" 5248142 (-189983);
    mk_city "Glasgow"    "glasgow"    5586520 (-425763);
    mk_city "Liverpool"  "liverpool"  5341060 (-297794);
    mk_city "Leeds"      "leeds"      5379650 (-154785);
    mk_city "Sheffield"  "sheffield"  5338297 (-146590);
    mk_city "Edinburgh"  "edinburgh"  5595206 (-319648);
    mk_city "Bristol"    "bristol"    5145451 (-258791);
    mk_city "Leicester"  "leicester"  5263860 (-113169) ].

Definition OPEN_METEO_URL : string := "https://api.open-meteo.com/v1/forecast".

Definition OPEN_METEO_PARAMS_BASE : list (string * pyval) :=
  [ ("current", PStr "temperature_2m,wind_speed_10m,wind_direction_10m");
    ("timezone", PStr "Europe/London") ].

Definition DEFAULT_OSC_HOST : string := "127.0.0.1".
Definition DEFAULT_OSC_PORT : Z := 9000.
Definition DEFAULT_REFRESH_SECONDS : Z := 60.

(** ** [deg_to_compass] *)

Definition dirs : list string :=
  [ "N"; "NNE"; "NE"; "ENE";
    "E"; "ESE"; "SE"; "SSE";
    "S"; "SSW"; "SW"; "WSW";
    "W"; "WNW"; "NW"; "NNW" ].

(** [idx = int((deg % 360) / 22.5 + 0.5)] and then [idx % 16]. *)
Definition compass_index (deg : pyval) : result Z :=
  (r <- Py.mod_ deg (PInt 360) ;;
   q <- Py.truediv r (PFloat (PyFloat.dec 225 1)) ;;
   s <- Py.add q (PFloat (PyFloat.dec 5 1)) ;;
   idx <- Py.int s ;;
   Return (idx mod 16))%result.

Definition deg_to_compass (deg : pyval) : result string :=
  if Py.is_none deg then Return "?"
  else (i <- compass_index deg ;; Py.index dirs i)%result.

(** ** The outside world of one tick

    The weather provider, the OSC/UDP library and the wall clock are
    collaborators of the program; one tick sees them through these
    oracles.  Within a tick an oracle answers by its arguments alone: the
    targets differ in their coordinates and the messages in their
    addresses, so every request and every datagram of a tick can still fare
    in its own way; the clock is read as one instant. *)

Record Response := {
  status_code : Z;
  (** the body as parsed by [resp.json()]; [None] when it is not JSON *)
  body_json : option pyval }.

Inductive GetOutcome :=
  | GetRaises (e : exn)         (* transport error, timeout, ... *)
  | GetReturns (r : Response).

Record OscMessage := { address : string; arg : PyFloat.float }.

Record UdpClient := { client_host : string; client_port : Z }.

Record World := {
  (** [requests.get(url, params=params, timeout=timeout)] *)
  requests_get : string -> list (string * pyval) -> Z -> GetOutcome;
  (** [udp_client.SimpleUDPClient(host, port)]: the exception it raises, if
      any *)
  client_error : string -> Z -> option exn;
  (** [osc_client.send_message(address, value)]: the exception it raises, if
      any *)
  send_error : UdpClient -> OscMessage -> option exn;
  (** [time.strftime(format)] *)
  strftime : string -> string }.

(** [resp.raise_for_status()] of requests: [HTTPError] on a 4xx or 5xx. *)
Definition raise_for_status (r : Response) : result unit :=
  if (400 <=? status_code r) && (status_code r <? 600)
  then raise HTTPError else Return tt.

Definition json (r : Response) : result pyval :=
  match body_json r with
  | Some v => Return v
  | None => raise JSONDecodeError
  end.

Definition http_get (w : World) (url : string) (params : list (string * pyval))
    (timeout : Z) : result Response :=
  match requests_get w url params timeout with
  | GetRaises e => Raise e
  | GetReturns r => Return r
  end.

(** ** [fetch_city_weather] *)

(** The dict the function returns. *)
Record Reading := {
  temperature : pyval;
  wind_speed : pyval;
  wind_dir : pyval;
  time : pyval }.

Definition fetch_params (city : City) : list (string * pyval) :=
  OPEN_METEO_PARAMS_BASE
    ++ [ ("latitude", PFloat (lat city)); ("longitude", PFloat (lon city)) ].

(** The [try] block: every exception in it is an [Exception]. *)
Definition fetch_try (w : World) (city : City) : result pyval :=
  (resp <- http_get w OPEN_METEO_URL (fetch_params city) 10 ;;
   _ <- raise_for_status resp ;;
   json resp)%result.

Definition fetch_city_weather (w : World) (city : City) : result (option Reading) :=
  match fetch_try w city with
  | Raise _ => Return None
  | Return data =>
      (current <- Py.get data "current" (PDict []) ;;
       t <- Py.get current "temperature_2m" PNone ;;
       ws <- Py.get current "wind_speed_10m" PNone ;;
       wd <- Py.get current "wind_direction_10m" PNone ;;
       tm <- Py.get current "time" PNone ;;
       Return (Some {| temperature := t; wind_speed := ws; wind_dir := wd; time := tm |}))%result
  end.

(** ** The application object *)

(** A row of the table: the [values] of a Treeview item, in the order of the
    columns [("city","temp","wind","dir","updated")]. *)
Record Row := {
  col_city : string;
  col_temp : string;
  col_wind : string;
  col_dir : string;
  col_updated : pyval }.

Record App := {
  running : bool;
  refresh_seconds : Z;
  (** [StringVar] *)
  osc_host : string;
  (** [IntVar]: what [get()] returns or raises, by the text of the entry *)
  osc_port : result Z;
  (** the Treeview: its items in insertion order, an item id being the
      position *)
  tree : list Row;
  (** [slug -> iid] *)
  tree_items : list (string * nat);
  start_button_enabled : bool;
  stop_button_enabled : bool;
  status_var : string;
  (** effects on the outside, oldest first: error dialogs shown, every
      [send_message] call with whether it went out, and the delay of each
      [master.after] armed *)
  dialogs : list (string * string);
  osc_log : list (OscMessage * bool);
  timers : list Z }.

(** Datagrams handed to the socket. *)
Definition sent_of (log : list (OscMessage * bool)) : list OscMessage :=
  map fst (filter snd log).

(** [send_message] calls that raised. *)
Definition send_failures_of (log : list (OscMessage * bool)) : list OscMessage :=
  map fst (filter (fun ev => negb (snd ev)) log).

(** Methods run in a state-and-exception monad over [App]: an exception
    leaves the state as it was when it was raised. *)
Definition M (A : Type) : Type := App -> result A * App.

Definition ret {A} (x : A) : M A := fun a => (Return x, a).
Definition throw {A} (e : exn) : M A := fun a => (Raise e, a).
Definition bind {A B} (c : M A) (k : A -> M B) : M B :=
  fun a => match c a with
           | (Return x, a') => k x a'
           | (Raise e, a') => (Raise e, a')
           end.
Definition lift {A} (r : result A) : M A := fun a => (r, a).
Definition gets {A} (f : App -> A) : M A := fun a => (Return (f a), a).
Definition modify (f : App -> App) : M unit := fun a => (Return tt, f a).
(** [try: c except: h] with a handler that catches everything. *)
Definition try_except {A} (c : M A) (h : exn -> M A) : M A :=
  fun a => match c a with
           | (Return x, a') => (Return x, a')
           | (Raise e, a') => h e a'
           end.

Declare Scope app_scope.
Delimit Scope app_scope with app.
Notation "x <- c ;; k" := (bind c (fun x => k))
  (at level 61, c at next level, right associativity) : app_scope.
Notation "c ;; k" := (bind c (fun _ => k))
  (at level 61, right associativity) : app_scope.

Definition set_running (b : bool) (a : App) : App :=
  {| running := b; refresh_seconds := refresh_seconds a; osc_host := osc_host a;
     osc_port := osc_port a; tree := tree a; tree_items := tree_items a;
     start_button_enabled := start_button_enabled a;
     stop_button_enabled := stop_button_enabled a; status_var := status_var a;
     dialogs := dialogs a; osc_log := osc_log a; timers := timers a |}.

Definition set_refresh_seconds (n : Z) (a : App) : App :=
  {| running := running a; refresh_seconds := n; osc_host := osc_host a;
     osc_port := osc_port a; tree := tree a; tree_items := tree_items a;
     start_button_enabled := start_button_enabled a;
     stop_button_enabled := stop_button_enabled a; status_var := status_var a;
     dialogs := dialogs a; osc_log := osc_log a; timers := timers a |}.

Definition set_tree (t : list Row) (a : App) : App :=
  {| running := running a; refresh_seconds := refresh_seconds a; osc_host := osc_host a;
     osc_port := osc_port a; tree := t; tree_items := tree_items a;
     start_button_enabled := start_button_enabled a;
     stop_button_enabled := stop_button_enabled a; status_var := status_var a;
     dialogs := dialogs a; osc_log := osc_log a; timers := timers a |}.

Definition set_tree_items (d : list (string * nat)) (a : App) : App :=
  {| running := running a; refresh_seconds := refresh_seconds a; osc_host := osc_host a;
     osc_port := osc_port a; tree := tree a; tree_items := d;
     start_button_enabled := start_button_enabled a;
     stop_button_enabled := stop_button_enabled a; status_var := status_var a;
     dialogs := dialogs a; osc_log := osc_log a; timers := timers a |}.

Definition set_buttons (start stop : bool) (a : App) : App :=
  {| running := running a; refresh_seconds := refresh_seconds a; osc_host := osc_host a;
     osc_port := osc_port a; tree := tree a; tree_items := tree_items a;
     start_button_enabled := start; stop_button_enabled := stop;
     status_var := status_var a;
     dialogs := dialogs a; osc_log := osc_log a; timers := timers a |}.

Definition set_status (s : string) (a : App) : App :=
  {| running := running a; refresh_seconds := refresh_seconds a; osc_host := osc_host a;
     osc_port := osc_port a; tree := tree a; tree_items := tree_items a;
     start_button_enabled := start_button_enabled a;
     stop_button_enabled := stop_button_enabled a; status_var := s;
     dialogs := dialogs a; osc_log := osc_log a; timers := timers a |}.

Definition add_dialog (title text : string) (a : App) : App :=
  {| running := running a; refresh_seconds := refresh_seconds a; osc_host := osc_host a;
     osc_port := osc_port a; tree := tree a; tree_items := tree_items a;
     start_button_enabled := start_button_enabled a;
     stop_button_enabled := stop_button_enabled a; status_var := status_var a;
     dialogs := dialogs a ++ [(title, text)]; osc_log := osc_log a; timers := timers a |}.

Definition add_osc (evs : list (OscMessage * bool)) (a : App) : App :=
  {| running := running a; refresh_seconds := refresh_seconds a; osc_host := osc_host a;
     osc_port := osc_port a; tree := tree a; tree_items := tree_items a;
     start_button_enabled := start_button_enabled a;
     stop_button_enabled := stop_button_enabled a; status_var := status_var a;
     dialogs := dialogs a; osc_log := osc_log a ++ evs; timers := timers a |}.

Definition add_timer (ms : Z) (a : App) : App :=
  {| running := running a; refresh_seconds := refresh_seconds a; osc_host := osc_host a;
     osc_port := osc_port a; tree := tree a; tree_items := tree_items a;
     start_button_enabled := start_button_enabled a;
     stop_button_enabled := stop_button_enabled a; status_var := status_var a;
     dialogs := dialogs a; osc_log := osc_log a; timers := timers a ++ [ms] |}.

(** [d[k] = v] *)
Fixpoint dict_set {A} (k : string) (v : A) (d : list (string * A)) : list (string * A) :=
  match d with
  | [] => [(k, v)]
  | (k', v') :: d' =>
      if String.eqb k k' then (k, v) :: d' else (k', v') :: dict_set k v d'
  end.

Fixpoint list_set {A} (i : nat) (x : A) (l : list A) : list A :=
  match l, i with
  | [], _ => []
  | _ :: l', O => x :: l'
  | y :: l', S i' => y :: list_set i' x l'
  end.

(** [self.tree.insert("", tk.END, values=row)] *)
Definition tree_insert (row : Row) : M nat :=
  fun a => (Return (List.length (tree a)), set_tree (tree a ++ [row]) a).

(** [self.tree.item(iid, values=row)]; Tk refuses an item it does not
    have, among them the [None] of a failed [tree_items.get]. *)
Definition tree_item (iid : option nat) (row : Row) : M unit :=
  fun a =>
    match iid with
    | Some i =>
        if (i <? List.length (tree a))%nat
        then (Return tt, set_tree (list_set i row (tree a)) a)
        else (raise TclError, a)
    | None => (raise TclError, a)
    end.

Definition dash_row (city : City) : Row :=
  {| col_city := name city; col_temp := "-"; col_wind := "-"; col_dir := "-";
     col_updated := PStr "-" |}.

Fixpoint insert_cities (cities : list City) : M unit :=
  match cities with
  | [] => ret tt
  | city :: rest =>
      (iid <- tree_insert (dash_row city) ;;
       modify (fun a => set_tree_items (dict_set (slug city) iid (tree_items a)) a) ;;
       insert_cities rest)%app
  end.

(** [__init__], before the widgets are built. *)
Definition blank_app : App :=
  {| running := false; refresh_seconds := DEFAULT_REFRESH_SECONDS;
     osc_host := DEFAULT_OSC_HOST; osc_port := Return DEFAULT_OSC_PORT;
     tree := []; tree_items := [];
     start_button_enabled := true; stop_button_enabled := false;
     status_var := "";
     dialogs := []; osc_log := []; timers := [] |}.

(** [_build_widgets], as far as it touches the state. *)
Definition _build_widgets : M unit :=
  (insert_cities CITIES ;;
   modify (set_buttons true false) ;;
   modify (set_status "Idle. Click Start to begin."))%app.

Definition new_app : App := snd (_build_widgets blank_app).

(** ** The methods of [WeatherOSCApp] *)

(** [_on_refresh_scale_move(value)].  Tk hands the scale position over as
    text; [float_value] is what [float(value)] makes of it. *)
Definition _on_refresh_scale_move (float_value : result PyFloat.float) : M unit :=
  try_except
    (f <- lift float_value ;;
     n <- lift (Py.int (PFloat f)) ;;
     modify (set_refresh_seconds n))%app
    (fun _ => modify (set_refresh_seconds DEFAULT_REFRESH_SECONDS)).

Definition degree_sign : string :=
  String (ascii_of_nat 194) (String (ascii_of_nat 176) EmptyString).

Definition en_dash : string :=
  String (ascii_of_nat 226) (String (ascii_of_nat 128) (String (ascii_of_nat 147) EmptyString)).

(** [osc_client.send_message(address, value)] *)
Definition send_message (w : World) (cl : UdpClient) (addr : string)
    (value : PyFloat.float) : M unit :=
  let msg := {| address := addr; arg := value |} in
  match send_error w cl msg with
  | Some e => (modify (add_osc [(msg, false)]) ;; throw e)%app
  | None => modify (add_osc [(msg, true)])
  end.

(** [if v is not None: osc_client.send_message(base + suffix, float(v))] *)
Definition send_field (w : World) (cl : UdpClient) (base suffix : string)
    (v : pyval) : M unit :=
  if Py.is_none v then ret tt
  else (f <- lift (Py.float v) ;; send_message w cl (base ++ suffix) f)%app.

(** The body of the [try] of one city's publication. *)
Definition publish (w : World) (cl : UdpClient) (city : City)
    (temp wind_speed wind_dir : pyval) : M unit :=
  let base := "/ukweather/" ++ slug city in
  (send_field w cl base "/temperature" temp ;;
   send_field w cl base "/wind_speed" wind_speed ;;
   send_field w cl base "/wind_dir_deg" wind_dir)%app.

(** ["-" if v is None else f"{v:.1f}"] *)
Definition one_decimal (v : pyval) : result string :=
  if Py.is_none v then Return "-" else Py.format_f 1 v.

(** ["-" if wind_dir is None else f"{wind_dir:.0f}° ({deg_to_compass(wind_dir)})"] *)
Definition dir_string (wind_dir : pyval) : result string :=
  if Py.is_none wind_dir then Return "-"
  else (d <- Py.format_f 0 wind_dir ;;
        c <- deg_to_compass wind_dir ;;
        Return (d ++ degree_sign ++ " (" ++ c ++ ")"))%result.

(** One pass through the body of [for city in CITIES], from the error count
    so far to the error count after. *)
Definition cycle_body (w : World) (osc_client : option UdpClient) (city : City)
    (errors : Z) : M Z :=
  (weather <- lift (fetch_city_weather w city) ;;
   iid <- gets (fun a => Py.lookup (slug city) (tree_items a)) ;;
   match weather with
   | None =>
       let errors := errors + 1 in
       tree_item iid {| col_city := name city; col_temp := "ERR"; col_wind := "ERR";
                        col_dir := "ERR"; col_updated := PStr (strftime w "%H:%M:%S") |} ;;
       ret errors
   | Some weather =>
       let temp := temperature weather in
       let wind_speed := wind_speed weather in
       let wind_dir := wind_dir weather in
       let ts := if Py.truthy (time weather) then time weather
                 else PStr (strftime w "%Y-%m-%dT%H:%M:%S") in
       dir_str <- lift (dir_string wind_dir) ;;
       temp_str <- lift (one_decimal temp) ;;
       wind_str <- lift (one_decimal wind_speed) ;;
       tree_item iid {| col_city := name city; col_temp := temp_str; col_wind := wind_str;
                        col_dir := dir_str; col_updated := ts |} ;;
       match osc_client with
       | Some cl =>
           try_except
             (publish w cl city temp wind_speed wind_dir ;; ret errors)
             (fun _ => ret (errors + 1))
       | None => ret errors
       end
   end)%app.

Fixpoint cycle_loop (w : World) (osc_client : option UdpClient) (cities : list City)
    (errors : Z) : M Z :=
  match cities with
  | [] => ret errors
  | city :: rest =>
      (errors' <- cycle_body w osc_client city errors ;;
       cycle_loop w osc_client rest errors')%app
  end.

(** [udp_client.SimpleUDPClient(self.osc_host.get(), int(self.osc_port.get()))] *)
Definition new_client (w : World) : M UdpClient :=
  (host <- gets osc_host ;;
   port <- (fun a => (osc_port a, a)) ;;
   match client_error w host port with
   | Some e => throw e
   | None => ret {| client_host := host; client_port := port |}
   end)%app.

Definition decimal (n : Z) : string :=
  NilZero.string_of_int (Z.to_int n).

(** The status line that closes a cycle. *)
Definition status_line (w : World) (errors : Z) : string :=
  if errors =? 0 then "Last update OK at " ++ strftime w "%H:%M:%S"
  else "Update had " ++ decimal errors ++ " error(s) at " ++ strftime w "%H:%M:%S".

(** [_update_cycle] over a list of cities; the program runs it on
    [CITIES]. *)
Definition update_cycle_over (w : World) (cities : list City) : M unit :=
  (r <- gets running ;;
   if negb r then ret tt
   else
     osc_client <- try_except
                     (cl <- new_client w ;; ret (Some cl))
                     (fun e => modify (set_status ("OSC error: " ++ exn_msg e)) ;; ret None) ;;
     errors <- cycle_loop w osc_client cities 0 ;;
     modify (set_status (status_line w errors)) ;;
     r <- gets running ;;
     if r then
       secs <- gets refresh_seconds ;;
       modify (add_timer (secs * 1000))
     else ret tt)%app.

Definition _update_cycle (w : World) : M unit := update_cycle_over w CITIES.

Definition port_in_range (port : Z) : bool := (1 <=? port) && (port <=? 65535).

Definition start_updates (w : World) : M unit :=
  (r <- gets running ;;
   if r then ret tt
   else
     checked <- try_except
                  (port <- (fun a => (osc_port a, a)) ;;
                   if negb (port_in_range port) then throw (Exn ValueError "")
                   else ret true)
                  (fun _ =>
                     modify (add_dialog "Invalid Port"
                               ("Enter valid port 1" ++ en_dash ++ "65535.")) ;;
                     ret false) ;;
     if negb checked then ret tt
     else
       modify (set_running true) ;;
       modify (set_buttons false true) ;;
       modify (set_status "Running...") ;;
       _update_cycle w)%app.

Definition stop_updates : M unit :=
  (r <- gets running ;;
   if negb r then ret tt
   else
     modify (set_running false) ;;
     modify (set_buttons true false) ;;
     modify (set_status "Stopped."))%app.

Definition _toggle_start_stop (w : World) : M unit :=
  (r <- gets running ;;
   if r then stop_updates else start_updates w)%app.

(** ** What one tick does, target by target

    The functions below describe the effect of a cycle in closed form; the
    theorems relate them to the methods above. *)

(** The outcome of the fetch of one target. *)
Definition is_failed (o : result (option Reading)) : bool :=
  match o with Return None => true | _ => false end.

Definition failed_fetches (w : World) (cities : list City) : list City :=
  filter (fun c => is_failed (fetch_city_weather w c)) cities.

(** A field the program can format and publish: absent, or a number that
    [float()] accepts. *)
Definition number_ok (v : pyval) : bool :=
  match v with
  | PNone => true
  | _ => match Py.float v with Return _ => true | Raise _ => false end
  end.

(** A wind direction the program can format, publish and name: absent, or a
    finite number. *)
Definition degrees_ok (v : pyval) : bool :=
  match v with
  | PNone => true
  | _ => match Py.float v with Return f => PyFloat.is_finite f | Raise _ => false end
  end.

Definition reading_ok (r : Reading) : bool :=
  number_ok (temperature r) && number_ok (wind_speed r) && degrees_ok (wind_dir r).

(** The provider answered for this target as the data model has it: the
    request failed as a whole, or the body is an object whose [current]
    holds numbers where it holds the three fields. *)
Definition city_ok (w : World) (c : City) : bool :=
  match fetch_city_weather w c with
  | Raise _ => false
  | Return None => true
  | Return (Some r) => reading_ok r
  end.

Definition text_of (r : result string) : string :=
  match r with Return s => s | Raise _ => "" end.

Definition err_row (w : World) (c : City) : Row :=
  {| col_city := name c; col_temp := "ERR"; col_wind := "ERR"; col_dir := "ERR";
     col_updated := PStr (strftime w "%H:%M:%S") |}.

Definition ok_row (w : World) (c : City) (r : Reading) : Row :=
  {| col_city := name c;
     col_temp := text_of (one_decimal (temperature r));
     col_wind := text_of (one_decimal (wind_speed r));
     col_dir := text_of (dir_string (wind_dir r));
     col_updated := if Py.truthy (time r) then time r
                    else PStr (strftime w "%Y-%m-%dT%H:%M:%S") |}.

(** The row a tick presents for a target. *)
Definition row_for (w : World) (c : City) : Row :=
  match fetch_city_weather w c with
  | Return (Some r) => ok_row w c r
  | _ => err_row w c
  end.

(** The value of a numeric field as a float. *)
Definition field_float (v : pyval) : PyFloat.float :=
  match Py.float v with Return f => f | Raise _ => S754_nan end.

(** One message for a field that is present, none for an absent one. *)
Definition field_message (c : City) (suffix : string) (v : pyval) : list OscMessage :=
  if Py.is_none v then []
  else [ {| address := ("/ukweather/" ++ slug c) ++ suffix; arg := field_float v |} ].

(** The messages a reading calls for: one per present field. *)
Definition due_messages (c : City) (r : Reading) : list OscMessage :=
  field_message c "/temperature" (temperature r)
    ++ field_message c "/wind_speed" (wind_speed r)
    ++ field_message c "/wind_dir_deg" (wind_dir r).


(** Sending messages one after the other until the first one that raises. *)
Fixpoint attempt (w : World) (cl : UdpClient) (msgs : list OscMessage)
    : list (OscMessage * bool) :=
  match msgs with
  | [] => []
  | m :: rest =>
      match send_error w cl m with
      | Some _ => [(m, false)]
      | None => (m, true) :: attempt w cl rest
      end
  end.

Fixpoint first_error (w : World) (cl : UdpClient) (msgs : list OscMessage) : option exn :=
  match msgs with
  | [] => None
  | m :: rest =>
      match send_error w cl m with
      | Some e => Some e
      | None => first_error w cl rest
      end
  end.

(** The [send_message] calls of one target in a tick. *)
Definition city_log (w : World) (client : option UdpClient) (c : City)
    : list (OscMessage * bool) :=
  match client, fetch_city_weather w c with
  | Some cl, Return (Some r) => attempt w cl (due_messages c r)
  | _, _ => []
  end.

(** What one target adds to the error count. *)
Definition city_errors (w : World) (client : option UdpClient) (c : City) : Z :=
  match fetch_city_weather w c with
  | Return None => 1
  | _ => match send_failures_of (city_log w client c) with [] => 0 | _ => 1 end
  end.

Definition tick_log (w : World) (client : option UdpClient) (cities : list City)
    : list (OscMessage * bool) :=
  List.concat (map (city_log w client) cities).

Definition tick_errors (w : World) (client : option UdpClient) (cities : list City) : Z :=
  fold_right Z.add 0 (map (city_errors w client) cities).

(** The client a tick publishes through, if it could be made. *)
Definition tick_client (w : World) (a : App) : option UdpClient :=
  match osc_port a with
  | Return port =>
      match client_error w (osc_host a) port with
      | Some _ => None
      | None => Some {| client_host := osc_host a; client_port := port |}
      end
  | Raise _ => None
  end.

(** The table has a row for each of the targets, in their order, and
    [tree_items] points at them. *)
Fixpoint indexed_from (n : nat) (cities : list City) (items : list (string * nat)) : bool :=
  match cities with
  | [] => true
  | c :: rest =>
      match Py.lookup (slug c) items with
      | Some i => Nat.eqb i n
      | None => false
      end && indexed_from (S n) rest items
  end.

Definition table_built (cities : list City) (a : App) : bool :=
  Nat.eqb (List.length (tree a)) (List.length cities)
  && indexed_from 0 cities (tree_items a).

(** The state a completed tick leaves. *)
Definition after_tick (w : World) (cities : list City) (a : App) : App :=
  let client := tick_client w a in
  add_timer (refresh_seconds a * 1000)
    (set_status (status_line w (tick_errors w client cities))
       (add_osc (tick_log w client cities)
          (set_tree (map (row_for w) cities) a))).

(** Following the spec's words: every message that is due is attempted and
    every failure to transmit one counts, so the failures of a tick are the
    due messages that did not go out. *)
Definition all_due (w : World) (cities : list City) : list OscMessage :=
  List.concat (map (fun c => match fetch_city_weather w c with
                        | Return (Some r) => due_messages c r
                        | _ => []
                        end) cities).

Definition spec_error_count (w : World) (cities : list City)
    (tick : list (OscMessage * bool)) : Z :=
  Z.of_nat (List.length (failed_fetches w cities))
  + (Z.of_nat (List.length (all_due w cities)) - Z.of_nat (List.length (sent_of tick))).

(** The operator typing into the port entry. *)
Definition set_osc_port (p : result Z) (a : App) : App :=
  {| running := running a; refresh_seconds := refresh_seconds a; osc_host := osc_host a;
     osc_port := p; tree := tree a; tree_items := tree_items a;
     start_button_enabled := start_button_enabled a;
     stop_button_enabled := stop_button_enabled a; status_var := status_var a;
     dialogs := dialogs a; osc_log := osc_log a; timers := timers a |}.

(** The state in which an accepted start runs its first cycle. *)
Definition started (a : App) : App :=
  set_status "Running..." (set_buttons false true (set_running true a)).

(** The state a refused start leaves. *)
Definition refused (a : App) : App :=
  add_dialog "Invalid Port" ("Enter valid port 1" ++ en_dash ++ "65535.") a.

(** The [try] block of [fetch_city_weather] raises. *)
Definition request_fails (w : World) (c : City) : bool :=
  match requests_get w OPEN_METEO_URL (fetch_params c) 10 with
  | GetRaises _ => true
  | GetReturns r =>
      ((400 <=? status_code r) && (status_code r <? 600))
      || match body_json r with None => true | Some _ => false end
  end.

Definition blank_reading : Reading :=
  {| temperature := PNone; wind_speed := PNone; wind_dir := PNone; time := PNone |}.

(** [d.get(k)] *)
Definition dict_field (d : list (string * pyval)) (k : string) : pyval :=
  match Py.lookup k d with Some v => v | None => PNone end.

(** ** The compass, following the spec's words

    Normalise into [0,360), divide by 22.5, round half up, take the result
    modulo 16 and index the table; in exact rational arithmetic. *)
Definition compass_spec (deg : Q) : string :=
  let normalized := (deg - 360 * inject_Z (Qfloor (deg / 360)))%Q in
  let steps := (normalized / (45 # 2))%Q in
  let rounded := Qfloor (steps + (1 # 2))%Q in
  nth (Z.to_nat (rounded mod 16)) dirs "?".

(** The rational a finite float stands for. *)
Definition float_value (x : PyFloat.float) : Q :=
  match x with
  | S754_finite s m e =>
      let n := cond_Zopp s (Zpos m) in
      if 0 <=? e then inject_Z (n * 2 ^ e) else n # Z.to_pos (2 ^ (- e))
  | _ => 0%Q
  end.

Definition index_ok (r : result Z) : bool :=
  match r with Return i => (0 <=? i) && (i <? 16) | Raise _ => false end.

Definition label_ok (k : nat) : bool :=
  match deg_to_compass (PInt (Z.of_nat k)) with
  | Return l => String.eqb l (nth (Z.to_nat (((4 * Z.of_nat k + 45) / 90) mod 16)) dirs "?")
  | Raise _ => false
  end.

(** ** Binary64 magnitudes *)

Definition fexp64 := fexp PyFloat.prec PyFloat.emax.

(** A float of magnitude below [2^k]: finite, never an infinity or NaN. *)
Definition below (k : Z) (x : PyFloat.float) : Prop :=
  match x with
  | S754_zero _ => True
  | S754_finite _ m e => e <= 971 /\ Zpos (digits2_pos m) + e <= k
  | _ => False
  end.

Definition f360 : PyFloat.float := S754_finite false 6333186975989760 (-44).
Definition f22_5 : PyFloat.float := S754_finite false 6333186975989760 (-48).
Definition f0_5 : PyFloat.float := S754_finite false 4503599627370496 (-53).

Definition outcome_of (e : option exn) : result unit :=
  match e with Some x => Raise x | None => Return tt end.

(** The state after [self.tree.item(self.tree_items.get(slug), values=row)],
    whether Tk takes it or raises. *)
Definition row_update (c : City) (row : Row) (a : App) : App :=
  snd (tree_item (Py.lookup (slug c) (tree_items a)) row a).


(** ** Sample worlds and states *)

Definition sample_body : pyval :=
  PDict [ ("current",
           PDict [ ("temperature_2m", PFloat (PyFloat.dec 152 1));
                   ("wind_speed_10m", PFloat (PyFloat.dec 94 1));
                   ("wind_direction_10m", PInt 250);
                   ("time", PStr "2024-01-01T12:00") ]) ].

Definition sample_reading : Reading :=
  {| temperature := PFloat (PyFloat.dec 152 1);
     wind_speed := PFloat (PyFloat.dec 94 1);
     wind_dir := PInt 250;
     time := PStr "2024-01-01T12:00" |}.

Definition partial_body : pyval :=
  PDict [ ("current",
           PDict [ ("temperature_2m", PFloat (PyFloat.dec 152 1));
                   ("time", PStr "2024-01-01T12:00") ]) ].

Definition respond (body : pyval) : GetOutcome :=
  GetReturns {| status_code := 200; body_json := Some body |}.

Definition asks_for (c : City) (params : list (string * pyval)) : bool :=
  match Py.lookup "latitude" params with
  | Some (PFloat f) => SFeqb f (lat c)
  | _ => false
  end.

Definition london : City := mk_city "London" "london" 5150850 (-12574).
Definition manchester : City := mk_city "Manchester" "manchester" 5348095 (-223743).

(** Every request answered in full, every datagram sent. *)
Definition w_fair : World :=
  {| requests_get := fun _ _ _ => respond sample_body;
     client_error := fun _ _ => None;
     send_error := fun _ _ => None;
     strftime := fun _ => "12:00:00" |}.

(** The destination cannot be resolved: no client. *)
Definition w_refused : World :=
  {| requests_get := fun _ _ _ => respond sample_body;
     client_error := fun _ _ => Some (Exn OSError "[Errno -2] Name or service not known");
     send_error := fun _ _ => None;
     strftime := fun _ => "12:00:00" |}.

(** One datagram, London's temperature, cannot be sent. *)
Definition w_dropped : World :=
  {| requests_get := fun _ _ _ => respond sample_body;
     client_error := fun _ _ => None;
     send_error := fun _ m =>
       if String.eqb (address m) "/ukweather/london/temperature"
       then Some (Exn OSError "[Errno 101] Network is unreachable") else None;
     strftime := fun _ => "12:00:00" |}.

(** The request for London times out. *)
Definition w_london_down : World :=
  {| requests_get := fun _ params _ =>
       if asks_for london params then GetRaises (Exn ReadTimeout "Read timed out.")
       else respond sample_body;
     client_error := fun _ _ => None;
     send_error := fun _ _ => None;
     strftime := fun _ => "12:00:00" |}.

(** The provider answers with an empty object. *)
Definition w_hollow : World :=
  {| requests_get := fun _ _ _ => respond (PDict []);
     client_error := fun _ _ => None;
     send_error := fun _ _ => None;
     strftime := fun _ => "12:00:00" |}.

(** The provider leaves out both wind fields. *)
Definition w_partial : World :=
  {| requests_get := fun _ _ _ => respond partial_body;
     client_error := fun _ _ => None;
     send_error := fun _ _ => None;
     strftime := fun _ => "12:00:00" |}.

Definition running_app : App := set_running true new_app.

(** ** Further notions used in the properties beyond the claims *)

(** The ends of the refresh slider, [from_=10] and [to=300]. *)
Definition SCALE_FROM : PyFloat.float := PyFloat.of_Z 10.
Definition SCALE_TO : PyFloat.float := PyFloat.of_Z 300.

(** A position the slider can report: a double between its two ends. *)
Definition on_scale (f : PyFloat.float) : bool :=
  PyFloat.valid f && SFleb SCALE_FROM f && SFleb f SCALE_TO.

(** The buttons tell the state: Start is enabled when idle, Stop when
    running. *)
Definition buttons_mirror (a : App) : Prop :=
  start_button_enabled a = negb (running a) /\ stop_button_enabled a = running a.

(** Everything of the application object but the table's rows, the status
    line and the two logs of effects. *)
Definition settings_of (a : App) :=
  (running a, refresh_seconds a, osc_host a, osc_port a, tree_items a,
   start_button_enabled a, stop_button_enabled a, dialogs a).

Definition is_dict (v : pyval) : bool :=
  match v with PDict _ => true | _ => false end.

(** The body came back as JSON, but it is not an object, or its
    ["current"] is there and is not an object. *)
Definition body_malformed (data : pyval) : bool :=
  match data with
  | PDict d =>
      match Py.lookup "current" d with
      | Some cur => negb (is_dict cur)
      | None => false
      end
  | _ => true
  end.

Definition answer_malformed (w : World) (c : City) : bool :=
  match requests_get w OPEN_METEO_URL (fetch_params c) 10 with
  | GetReturns r =>
      negb ((400 <=? status_code r) && (status_code r <? 600))
      && match body_json r with
         | Some data => body_malformed data
         | None => false
         end
  | GetRaises _ => false
  end.

(** The state a stop leaves when the machine was running. *)
Definition stopped (a : App) : App :=
  set_status "Stopped." (set_buttons true false (set_running false a)).

(** The rows of the table after a cycle that got through the targets
    [done] and no further. *)
Definition rows_after (w : World) (done : list City) (t : list Row) : list Row :=
  (map (row_for w) done ++ skipn (List.length done) t)%list.

Definition agree_on_degrees (k : nat) : bool :=
  let z := Z.of_nat k - 360 in
  match deg_to_compass (PFloat (PyFloat.of_Z z)), deg_to_compass (PInt z) with
  | Return a, Return b => String.eqb a b
  | _, _ => false
  end.

(** London's temperature comes as text. *)
Definition text_body : pyval :=
  PDict [ ("current",
           PDict [ ("temperature_2m", PStr "mild");
                   ("wind_speed_10m", PFloat (PyFloat.dec 94 1));
                   ("wind_direction_10m", PInt 250) ]) ].

(** The answer for Manchester is a JSON list; the others are in order. *)
Definition w_garbled : World :=
  {| requests_get := fun _ params _ =>
       if asks_for manchester params then respond (PList []) else respond sample_body;
     client_error := fun _ _ => None;
     send_error := fun _ _ => None;
     strftime := fun _ => "12:00:00" |}.

(** Manchester's temperature comes as text. *)
Definition w_text : World :=
  {| requests_get := fun _ params _ =>
       if asks_for manchester params then respond text_body else respond sample_body;
     client_error := fun _ _ => None;
     send_error := fun _ _ => None;
     strftime := fun _ => "12:00:00" |}.

(** [tree_items] after the rows of [cities] have been inserted one after the
    other, the first of them as row [n]. *)
Fixpoint items_after (n : nat) (cities : list City) (d : list (string * nat))
    : list (string * nat) :=
  match cities with
  | [] => d
  | c :: rest => items_after (S n) rest (dict_set (slug c) n d)
  end.

Definition birmingham : City := mk_city "Birmingham" "birmingham" 5248142 (-189983).

(** The targets a cycle gets through: those before the first whose answer
    is outside the data model. *)
Fixpoint served (w : World) (cities : list City) : list City :=
  match cities with
  | [] => []
  | c :: rest => if city_ok w c then c :: served w rest else []
  end.

(** The errors that arise at the targets [l]: fetches that failed and
    [send_message] calls that raised. *)
Definition errors_at (w : World) (client : option UdpClient) (l : list City) : Z :=
  Z.of_nat (List.length (failed_fetches w l))
  + Z.of_nat (List.length (send_failures_of (tick_log w client l))).

(** The request for London times out and the answer for Manchester is a
    JSON list; the others are in order. *)
Definition w_down_then_garbled : World :=
  {| requests_get := fun _ params _ =>
       if asks_for london params then GetRaises (Exn ReadTimeout "Read timed out.")
       else if asks_for manchester params then respond (PList [])
       else respond sample_body;
     client_error := fun _ _ => None;
     send_error := fun _ _ => None;
     strftime := fun _ => "12:00:00" |}.

(** The request for London times out and the answer for Birmingham is a
    JSON list; the others are in order. *)
Definition w_garbled_later : World :=
  {| requests_get := fun _ params _ =>
       if asks_for london params then GetRaises (Exn ReadTimeout "Read timed out.")
       else if asks_for birmingham params then respond (PList [])
       else respond sample_body;
     client_error := fun _ _ => None;
     send_error := fun _ _ => None;
     strftime := fun _ => "12:00:00" |}.

(** * Proofs *)

Local Open Scope list_scope.
Local Open Scope Z_scope.

(** ** Binary64: magnitudes stay bounded *)

Lemma digits2_pos_log2 (p : positive) : Zpos (digits2_pos p) = Z.log2 (Zpos p) + 1.
Proof.
  assert (H : forall q, digits2_pos q = Pos.size q).
  { induction q as [q IH|q IH|]; simpl; congruence. }
  rewrite H. destruct p; simpl; lia.
Qed.

Lemma Zdigits2_nonneg (m : Z) : 0 <= Zdigits2 m.
Proof. destruct m; simpl; lia. Qed.

Lemma Zdigits2_le_iff (m k : Z) : 0 <= m -> 0 <= k -> (Zdigits2 m <= k <-> m < 2 ^ k).
Proof.
  intros Hm Hk. destruct m as [|p|p]; try lia.
  - simpl. split; intros _; [apply Z.pow_pos_nonneg|]; lia.
  - unfold Zdigits2. rewrite digits2_pos_log2.
    rewrite (Z.log2_lt_pow2 (Zpos p) k) by lia. lia.
Qed.

Lemma Zdigits2_mono (a b : Z) : 0 <= a <= b -> Zdigits2 a <= Zdigits2 b.
Proof.
  intros H. apply Zdigits2_le_iff; [lia | apply Zdigits2_nonneg |].
  assert (Hb : b < 2 ^ Zdigits2 b).
  { apply Zdigits2_le_iff; [lia | apply Zdigits2_nonneg | lia]. }
  lia.
Qed.

Lemma Zdigits2_double (a : Z) : 0 <= a -> Zdigits2 (2 * a) <= Zdigits2 a + 1.
Proof.
  intros H. pose proof (Zdigits2_nonneg a).
  apply Zdigits2_le_iff; [lia | lia |].
  assert (Ha : a < 2 ^ Zdigits2 a) by (apply Zdigits2_le_iff; lia).
  rewrite Z.pow_add_r by lia. lia.
Qed.

Lemma Zdigits2_add (a b : Z) :
  0 <= a -> 0 <= b -> Zdigits2 (a + b) <= Z.max (Zdigits2 a) (Zdigits2 b) + 1.
Proof.
  intros Ha Hb.
  destruct (Z.le_ge_cases a b).
  - transitivity (Zdigits2 (2 * b)); [apply Zdigits2_mono; lia|].
    pose proof (Zdigits2_double b Hb). lia.
  - transitivity (Zdigits2 (2 * a)); [apply Zdigits2_mono; lia|].
    pose proof (Zdigits2_double a Ha). lia.
Qed.

Lemma Zdigits2_shiftr (m n : Z) :
  0 <= m -> 0 <= n -> Zdigits2 (m / 2 ^ n) <= Z.max 0 (Zdigits2 m - n).
Proof.
  intros Hm Hn. pose proof (Zdigits2_nonneg m) as Hd.
  assert (Hb : m < 2 ^ Zdigits2 m) by (apply Zdigits2_le_iff; lia).
  assert (Hp : 0 < 2 ^ n) by (apply Z.pow_pos_nonneg; lia).
  apply Zdigits2_le_iff; [apply Z.div_pos; lia | lia |].
  apply Z.div_lt_upper_bound; [lia|].
  destruct (Z.le_gt_cases n (Zdigits2 m)).
  - rewrite Z.max_r by lia. rewrite <- Z.pow_add_r by lia.
    replace (n + (Zdigits2 m - n)) with (Zdigits2 m) by lia. exact Hb.
  - rewrite Z.max_l by lia. rewrite Z.pow_0_r, Z.mul_1_r.
    eapply Z.lt_le_trans; [exact Hb|]. apply Z.pow_le_mono_r; lia.
Qed.

Lemma Zdigits2_shiftl (m n : Z) :
  0 <= m -> 0 <= n -> Zdigits2 (m * 2 ^ n) <= Zdigits2 m + n.
Proof.
  intros Hm Hn. pose proof (Zdigits2_nonneg m) as Hd.
  assert (Hb : m < 2 ^ Zdigits2 m) by (apply Zdigits2_le_iff; lia).
  assert (Hp : 0 < 2 ^ n) by (apply Z.pow_pos_nonneg; lia).
  apply Zdigits2_le_iff; [nia | lia |].
  rewrite Z.pow_add_r by lia. nia.
Qed.

(** Shifting right, as the rounding does it. *)
Lemma shr_1_m (mrs : shr_record) :
  0 <= shr_m mrs -> shr_m (shr_1 mrs) = shr_m mrs / 2.
Proof.
  destruct mrs as [m r s]; simpl. intros Hm.
  destruct m as [|p|p]; try lia; try reflexivity.
  destruct p; simpl.
  - apply Z.div_unique with (r := 1); lia.
  - apply Z.div_unique with (r := 0); lia.
  - reflexivity.
Qed.

Lemma iter_shr_1_m (p : positive) : forall mrs,
  0 <= shr_m mrs -> shr_m (SpecFloat.iter_pos shr_1 p mrs) = shr_m mrs / 2 ^ Zpos p.
Proof.
  assert (Hnn : forall m k, 0 <= m -> 0 <= m / 2 ^ k).
  { intros m k Hm. destruct (Z.le_gt_cases 0 k).
    - apply Z.div_pos; [lia | apply Z.pow_pos_nonneg; lia].
    - rewrite Z.pow_neg_r by lia. now rewrite Z.div_0_r. }
  induction p as [p IH|p IH|]; intros mrs Hm; cbn [SpecFloat.iter_pos].
  - assert (Hpow : 2 ^ Zpos p~1 = 2 * (2 ^ Zpos p * 2 ^ Zpos p)).
    { rewrite <- Z.pow_add_r, <- Z.pow_succ_r by lia. f_equal. lia. }
    pose proof (Hnn _ 1 Hm) as H1. rewrite Z.pow_1_r in H1.
    rewrite IH, IH, shr_1_m; try assumption.
    + rewrite Hpow, !Z.div_div by (try apply Z.pow_pos_nonneg; lia).
      try (f_equal; lia).
    + rewrite shr_1_m by assumption. assumption.
    + rewrite IH; rewrite shr_1_m; try assumption.
      apply Hnn. assumption.
  - assert (Hpow : 2 ^ Zpos p~0 = 2 ^ Zpos p * 2 ^ Zpos p).
    { rewrite <- Z.pow_add_r by lia. f_equal. lia. }
    rewrite IH, IH; try assumption.
    + rewrite Hpow, !Z.div_div by (try apply Z.pow_pos_nonneg; lia).
      try reflexivity.
    + rewrite IH by assumption. apply Hnn. assumption.
  - rewrite shr_1_m by assumption. reflexivity.
Qed.

Lemma shr_fexp_bounds (m e : Z) (l : location) :
  0 <= m ->
  let '(mrs, e') := shr_fexp PyFloat.prec PyFloat.emax m e l in
  0 <= shr_m mrs /\ e' = Z.max e (fexp64 (Zdigits2 m + e)) /\
  Zdigits2 (shr_m mrs) + e' <= Z.max (Zdigits2 m + e) e'.
Proof.
  intros Hm. unfold shr_fexp, shr.
  set (n := fexp PyFloat.prec PyFloat.emax (Zdigits2 m + e) - e).
  assert (Hrec : shr_m (shr_record_of_loc m l) = m).
  { destruct l as [|[]]; reflexivity. }
  fold fexp64. pose proof (Zdigits2_nonneg m) as Hd.
  destruct n as [|p|p] eqn:En.
  - rewrite Hrec. unfold fexp64. lia.
  - rewrite iter_shr_1_m by (rewrite Hrec; exact Hm). rewrite Hrec.
    pose proof (Zdigits2_shiftr m (Zpos p) Hm ltac:(lia)) as Hs.
    pose proof (Zdigits2_nonneg (m / 2 ^ Zpos p)).
    split; [apply Z.div_pos; [lia | apply Z.pow_pos_nonneg; lia]|].
    unfold fexp64. split; lia.
  - rewrite Hrec. unfold fexp64. lia.
Qed.

Lemma below_finite k x : below k x -> PyFloat.is_finite x = true.
Proof. destruct x; simpl; intuition. Qed.

Lemma below_weaken k k' x : k <= k' -> below k x -> below k' x.
Proof. destruct x; simpl; intuition lia. Qed.

Lemma round_nearest_even_bounds (m : Z) (l : location) :
  0 <= m -> m <= round_nearest_even m l <= m + 1.
Proof.
  intros Hm. destruct l as [|[]]; simpl; try lia.
  destruct (Z.even m); lia.
Qed.

Lemma Zdigits2_succ (m : Z) : 0 <= m -> Zdigits2 (m + 1) <= Zdigits2 m + 1.
Proof.
  intros Hm. destruct (Z.eq_dec m 0) as [->|Hn]; [simpl; lia|].
  transitivity (Zdigits2 (2 * m)); [apply Zdigits2_mono; lia|].
  apply Zdigits2_double; lia.
Qed.

Lemma binary_round_aux_below (k : Z) (sx : bool) (mx ex : Z) (lx : location) :
  0 <= mx -> 0 <= k <= 1023 -> ex <= 971 -> Zdigits2 mx + ex <= k ->
  below (k + 1) (binary_round_aux PyFloat.prec PyFloat.emax sx mx ex lx).
Proof.
  intros Hm Hk He Hd. unfold binary_round_aux.
  pose proof (shr_fexp_bounds mx ex lx Hm) as H1.
  destruct (shr_fexp PyFloat.prec PyFloat.emax mx ex lx) as [mrs' e'].
  destruct H1 as (Hm' & He' & Hd').
  set (m'' := round_nearest_even (shr_m mrs') (loc_of_shr_record mrs')).
  pose proof (round_nearest_even_bounds (shr_m mrs') (loc_of_shr_record mrs') Hm') as Hr.
  fold m'' in Hr.
  assert (Hd'' : Zdigits2 m'' <= Zdigits2 (shr_m mrs') + 1).
  { transitivity (Zdigits2 (shr_m mrs' + 1)); [apply Zdigits2_mono; lia|].
    apply Zdigits2_succ; assumption. }
  pose proof (shr_fexp_bounds m'' e' loc_Exact ltac:(lia)) as H2.
  destruct (shr_fexp PyFloat.prec PyFloat.emax m'' e' loc_Exact) as [mrs'' e''].
  destruct H2 as (Hmf & Hef & Hdf).
  pose proof (Zdigits2_nonneg mx). pose proof (Zdigits2_nonneg (shr_m mrs')).
  pose proof (Zdigits2_nonneg m'').
  unfold fexp64, fexp, emin, PyFloat.prec, PyFloat.emax in *.
  destruct (shr_m mrs'') as [|p|p] eqn:Ep; [exact I | | lia].
  assert (He'' : e'' <= 971) by lia.
  destruct (Z.leb_spec e'' (1024 - 53)); [|lia].
  simpl in Hdf |- *. split; lia.
Qed.

Lemma digits2_pos_iter_xO (m d : positive) :
  Zpos (digits2_pos (Pos.iter xO m d)) = Zpos (digits2_pos m) + Zpos d.
Proof.
  induction d as [|d IH] using Pos.peano_ind.
  - simpl. lia.
  - rewrite Pos.iter_succ. simpl. lia.
Qed.

Lemma shl_align_digits (mx : positive) (ex ex' : Z) :
  let '(mz, ez) := shl_align mx ex ex' in
  ez = Z.min ex ex' /\ Zpos (digits2_pos mz) + ez = Zpos (digits2_pos mx) + ex.
Proof.
  unfold shl_align. destruct (ex' - ex) as [|d|d] eqn:Ed; try lia.
  rewrite digits2_pos_iter_xO. lia.
Qed.

Lemma binary_round_below (k : Z) (sx : bool) (mx : positive) (ex : Z) :
  0 <= k <= 1023 -> ex <= 971 -> Zpos (digits2_pos mx) + ex <= k ->
  below (k + 1) (binary_round PyFloat.prec PyFloat.emax sx mx ex).
Proof.
  intros Hk He Hd. unfold binary_round.
  pose proof (shl_align_digits mx ex
                (fexp PyFloat.prec PyFloat.emax (Zpos (digits2_pos mx) + ex))) as Hs.
  destruct (shl_align _ _ _) as [mz ez]. destruct Hs as [Hez Hdz].
  apply binary_round_aux_below; cbn [Zdigits2]; lia.
Qed.

Lemma binary_normalize_below (k m e : Z) (szero : bool) :
  0 <= k <= 1023 -> e <= 971 -> Zdigits2 m + e <= k ->
  below (k + 1) (binary_normalize PyFloat.prec PyFloat.emax m e szero).
Proof.
  intros Hk He Hd. destruct m as [|p|p]; simpl in *;
    [exact I | apply binary_round_below; assumption ..].
Qed.

Lemma Zdigits2_abs (z : Z) : Zdigits2 z = Zdigits2 (Z.abs z).
Proof. destruct z; reflexivity. Qed.

Lemma Zdigits2_cond_Zopp (b : bool) (z : Z) : Zdigits2 (cond_Zopp b z) = Zdigits2 z.
Proof. destruct b, z; reflexivity. Qed.

Lemma add_below (k : Z) (x y : PyFloat.float) :
  0 <= k <= 1022 -> below k x -> below k y -> below (k + 2) (PyFloat.add x y).
Proof.
  intros Hk Hx Hy.
  destruct x as [sx|sx| |sx mx ex], y as [sy|sy| |sy my ey];
    try contradiction; cbn [below] in Hx, Hy |- *.
  - destruct sx, sy; exact I.
  - change (below (k + 2) (S754_finite sy my ey)). cbn [below]. lia.
  - change (below (k + 2) (S754_finite sx mx ex)). cbn [below]. lia.
  - unfold PyFloat.add, SFadd.
    remember (Z.min ex ey) as ez eqn:Ez.
    pose proof (shl_align_digits mx ex ez) as Ha.
    pose proof (shl_align_digits my ey ez) as Hb.
    destruct (shl_align mx ex ez) as [a ea], (shl_align my ey ez) as [b eb].
    cbn [fst]. destruct Ha as [Hea Hda], Hb as [Heb Hdb].
    replace (k + 2) with (k + 1 + 1) by lia.
    apply binary_normalize_below; [lia | lia |].
    rewrite Zdigits2_abs.
    assert (Hab : Z.abs (cond_Zopp sx (Zpos a) + cond_Zopp sy (Zpos b)) <= Zpos a + Zpos b)
      by (destruct sx, sy; simpl cond_Zopp; lia).
    pose proof (Zdigits2_mono _ _ (conj (Z.abs_nonneg _) Hab)) as Hmono.
    pose proof (Zdigits2_add (Zpos a) (Zpos b) ltac:(lia) ltac:(lia)) as Hadd.
    change (Zdigits2 (Zpos a)) with (Zpos (digits2_pos a)) in Hadd.
    change (Zdigits2 (Zpos b)) with (Zpos (digits2_pos b)) in Hadd.
    lia.
Qed.

Lemma div_below (k : Z) (x : PyFloat.float) (sy : bool) (my : positive) (ey : Z) :
  0 <= k - ey <= 1023 -> below k x ->
  below (k - ey + 1) (PyFloat.div x (S754_finite sy my ey)).
Proof.
  intros Hk Hx. destruct x as [sx|sx| |sx mx ex]; try contradiction; [exact I|].
  cbn [below] in Hx. unfold PyFloat.div, SFdiv, SFdiv_core_binary.
  remember (Zdigits2 (Zpos mx)) as d1 eqn:Hd1.
  remember (Zdigits2 (Zpos my)) as d2 eqn:Hd2.
  remember (Z.min (fexp PyFloat.prec PyFloat.emax (d1 + ex - (d2 + ey))) (ex - ey))
    as e' eqn:He'.
  remember (ex - ey - e') as s eqn:Hs.
  cbn [Zdigits2] in Hd1, Hd2.
  assert (Hm' : exists m', 0 <= m' /\ Zdigits2 m' <= d1 + s /\
            match s with Z0 => Zpos mx | Zpos _ => Z.shiftl (Zpos mx) s | Zneg _ => 0 end = m').
  { destruct s as [|p|p]; try lia.
    - exists (Zpos mx). cbn [Zdigits2]. repeat split; lia.
    - exists (Z.shiftl (Zpos mx) (Zpos p)). rewrite Z.shiftl_mul_pow2 by lia.
      pose proof (Zdigits2_shiftl (Zpos mx) (Zpos p) ltac:(lia) ltac:(lia)) as Hsh.
      change (Zdigits2 (Zpos mx)) with (Zpos (digits2_pos mx)) in Hsh.
      repeat split; [lia | lia]. }
  destruct Hm' as (m' & Hm0 & Hmd & ->).
  pose proof (Z_div_mod m' (Zpos my) ltac:(lia)) as Hdm.
  destruct (Z.div_eucl m' (Zpos my)) as [q r]. destruct Hdm as [Hq Hr].
  assert (Hq0 : 0 <= q <= m') by nia.
  pose proof (Zdigits2_mono q m' Hq0).
  unfold fexp, emin, PyFloat.prec, PyFloat.emax in He'.
  apply binary_round_aux_below; lia.
Qed.

Lemma fmod_below (k : Z) (sx : bool) (mx : positive) (ex : Z)
    (sy : bool) (my : positive) (ey : Z) :
  0 <= k <= 1023 -> below k (S754_finite sy my ey) ->
  below (k + 1) (PyFloat.fmod (S754_finite sx mx ex) (S754_finite sy my ey)).
Proof.
  intros Hk [Hey Hdy]. unfold PyFloat.fmod.
  remember (Z.min ex ey) as ez eqn:Ez.
  set (X := Z.shiftl (Zpos mx) (ex - ez)). set (Y := Z.shiftl (Zpos my) (ey - ez)).
  assert (HY : 0 < Y /\ Zdigits2 Y <= Zpos (digits2_pos my) + (ey - ez)).
  { unfold Y. rewrite Z.shiftl_mul_pow2 by lia.
    assert (0 < 2 ^ (ey - ez)) by (apply Z.pow_pos_nonneg; lia).
    split; [lia|]. apply (Zdigits2_shiftl (Zpos my)); lia. }
  pose proof (Z.mod_pos_bound X Y (proj1 HY)) as HR.
  pose proof (Zdigits2_mono (X mod Y) Y ltac:(lia)).
  apply binary_normalize_below; [lia | lia |].
  rewrite Zdigits2_cond_Zopp. lia.
Qed.

Lemma float_of_int_360 : Py.float_of_int 360 = Return f360.
Proof. reflexivity. Qed.

Lemma dec_22_5 : PyFloat.dec 225 1 = f22_5.
Proof. reflexivity. Qed.

Lemma dec_0_5 : PyFloat.dec 5 1 = f0_5.
Proof. reflexivity. Qed.

Lemma float_rem_360_below (deg : PyFloat.float) :
  PyFloat.is_finite deg = true ->
  exists r, Py.float_rem deg f360 = Return r /\ below 12 r.
Proof.
  intros Hf. unfold Py.float_rem. cbn [PyFloat.is_zero f360].
  destruct deg as [s|s| |s m e]; try discriminate.
  - simpl. eexists; split; [reflexivity | exact I].
  - assert (Hb : below 10 (PyFloat.fmod (S754_finite s m e) f360)).
    { apply (fmod_below 9); simpl; lia. }
    destruct (PyFloat.is_zero _).
    + eexists; split; [reflexivity | exact I].
    + destruct (negb _).
      * eexists; split; [reflexivity|].
        apply (add_below 10); [lia | assumption | simpl; lia].
      * eexists; split; [reflexivity|]. apply (below_weaken 10); [lia | assumption].
Qed.

Lemma compass_index_float (deg : PyFloat.float) :
  PyFloat.is_finite deg = true ->
  exists i, compass_index (PFloat deg) = Return i /\ 0 <= i < 16.
Proof.
  intros Hf. destruct (float_rem_360_below deg Hf) as (r & Hr & Hb).
  unfold compass_index, Py.mod_. cbn [Py.as_num Py.to_float rbind].
  rewrite float_of_int_360. cbn [rbind]. rewrite Hr. cbn [rbind].
  unfold Py.truediv. cbn [Py.as_num Py.to_float rbind].
  rewrite dec_22_5. cbn [PyFloat.is_zero f22_5 rbind].
  pose proof (div_below 12 r false 6333186975989760 (-48) ltac:(lia) Hb) as Hq.
  fold f22_5 in Hq.
  unfold Py.add. cbn [Py.as_num Py.to_float rbind]. rewrite dec_0_5.
  pose proof (add_below 61 _ f0_5 ltac:(lia) Hq ltac:(simpl; lia)) as Hs.
  unfold Py.int. cbn [Py.as_num].
  destruct (PyFloat.add (PyFloat.div r f22_5) f0_5) as [s0|s0| |s0 m0 e0];
    try contradiction; cbn [PyFloat.trunc rbind];
    (eexists; split; [reflexivity | apply Z.mod_pos_bound; lia]).
Qed.

(** ** The compass on numbers *)

Lemma compass_index_reduce (z : Z) :
  compass_index (PInt z) = compass_index (PInt (z mod 360)).
Proof.
  unfold compass_index, Py.mod_. cbn [Py.as_num].
  change (360 =? 0) with false. cbv iota. cbn [rbind].
  rewrite Z.mod_mod by lia. reflexivity.
Qed.

Lemma compass_index_table :
  forallb (fun k => index_ok (compass_index (PInt (Z.of_nat k)))) (seq 0 360) = true.
Proof. vm_compute. reflexivity. Qed.

Lemma compass_index_int (z : Z) :
  exists i, compass_index (PInt z) = Return i /\ 0 <= i < 16.
Proof.
  rewrite compass_index_reduce.
  pose proof (Z.mod_pos_bound z 360 ltac:(lia)) as Hb.
  pose proof compass_index_table as Ht. rewrite forallb_forall in Ht.
  specialize (Ht (Z.to_nat (z mod 360))).
  rewrite Z2Nat.id in Ht by lia.
  assert (Hin : In (Z.to_nat (z mod 360)) (seq 0 360)) by (apply in_seq; lia).
  specialize (Ht Hin). unfold index_ok in Ht.
  destruct (compass_index (PInt (z mod 360))) as [i|e]; [|discriminate].
  exists i. split; [reflexivity | lia].
Qed.

Lemma index_dirs (i : Z) :
  0 <= i < 16 -> exists l, Py.index dirs i = Return l /\ In l dirs.
Proof.
  intros Hi. unfold Py.index.
  change (Z.of_nat (List.length dirs)) with 16.
  destruct (Z.ltb_spec i 0); [lia|].
  destruct (Z.leb_spec 0 i); [|lia]. destruct (Z.ltb_spec i 16); [|lia].
  cbn [andb].
  destruct (nth_error dirs (Z.to_nat i)) as [l|] eqn:En.
  - exists l. split; [reflexivity | eapply nth_error_In; eassumption].
  - apply nth_error_None in En. simpl in En. lia.
Qed.

Lemma degrees_ok_compass (v : pyval) :
  degrees_ok v = true -> exists l, deg_to_compass v = Return l.
Proof.
  intros Hok. unfold deg_to_compass.
  destruct v as [|b|z|f|s|l|d]; cbn [Py.is_none]; try (eexists; reflexivity);
    try discriminate.
  - assert (H : exists i, compass_index (PBool b) = Return i /\ 0 <= i < 16).
    { exists 0. destruct b; (split; [reflexivity | lia]). }
    destruct H as (i & -> & Hi). cbn [rbind].
    destruct (index_dirs i Hi) as (l & -> & _). eexists; reflexivity.
  - destruct (compass_index_int z) as (i & -> & Hi). cbn [rbind].
    destruct (index_dirs i Hi) as (l & -> & _). eexists; reflexivity.
  - unfold degrees_ok in Hok. cbn in Hok.
    destruct (compass_index_float f Hok) as (i & -> & Hi). cbn [rbind].
    destruct (index_dirs i Hi) as (l & -> & _). eexists; reflexivity.
Qed.

Lemma number_ok_float (v : pyval) :
  number_ok v = true -> Py.is_none v = false ->
  exists n, Py.as_num v = Some n /\ Py.to_float n = Return (field_float v).
Proof.
  unfold number_ok, field_float, Py.float. intros Hok Hn.
  destruct v; try discriminate; cbn [Py.as_num] in *;
    (eexists; split; [reflexivity|]);
    match goal with |- ?t = _ => destruct t end; (reflexivity || discriminate).
Qed.

Lemma degrees_ok_number (v : pyval) : degrees_ok v = true -> number_ok v = true.
Proof.
  unfold degrees_ok, number_ok. destruct v; try reflexivity;
    destruct (Py.float _); congruence.
Qed.

Lemma one_decimal_ok (v : pyval) :
  number_ok v = true -> one_decimal v = Return (text_of (one_decimal v)).
Proof.
  intros Hok. unfold one_decimal. destruct (Py.is_none v) eqn:Hn; [reflexivity|].
  destruct (number_ok_float v Hok Hn) as (n & Hn1 & Hn2).
  unfold Py.format_f. rewrite Hn1, Hn2. reflexivity.
Qed.

Lemma dir_string_ok (v : pyval) :
  degrees_ok v = true -> dir_string v = Return (text_of (dir_string v)).
Proof.
  intros Hok. unfold dir_string. destruct (Py.is_none v) eqn:Hn; [reflexivity|].
  destruct (number_ok_float v (degrees_ok_number v Hok) Hn) as (n & Hn1 & Hn2).
  destruct (degrees_ok_compass v Hok) as (l & Hl).
  unfold Py.format_f. rewrite Hn1, Hn2, Hl. reflexivity.
Qed.

(** ** State bookkeeping *)

Lemma add_osc_nil (a : App) : add_osc [] a = a.
Proof. destruct a. unfold add_osc. cbn. rewrite app_nil_r. reflexivity. Qed.

Lemma add_osc_add_osc (l1 l2 : list (OscMessage * bool)) (a : App) :
  add_osc l2 (add_osc l1 a) = add_osc (l1 ++ l2) a.
Proof. unfold add_osc. cbn. rewrite app_assoc. reflexivity. Qed.

Lemma add_osc_set_tree (l1 l2 : list (OscMessage * bool)) (t1 t2 : list Row) (a : App) :
  add_osc l2 (set_tree t2 (add_osc l1 (set_tree t1 a))) = add_osc (l1 ++ l2) (set_tree t2 a).
Proof. unfold add_osc, set_tree. cbn. rewrite app_assoc. reflexivity. Qed.

(** ** Publishing *)

Lemma attempt_app (w : World) (cl : UdpClient) (l1 l2 : list OscMessage) :
  attempt w cl (l1 ++ l2) =
  attempt w cl l1 ++ match first_error w cl l1 with
                     | Some _ => []
                     | None => attempt w cl l2
                     end.
Proof.
  induction l1 as [|m l1 IH]; cbn [attempt first_error app]; [reflexivity|].
  destruct (send_error w cl m); [reflexivity|]. rewrite IH. reflexivity.
Qed.

Lemma first_error_app (w : World) (cl : UdpClient) (l1 l2 : list OscMessage) :
  first_error w cl (l1 ++ l2) =
  match first_error w cl l1 with
  | Some e => Some e
  | None => first_error w cl l2
  end.
Proof.
  induction l1 as [|m l1 IH]; cbn [first_error app]; [reflexivity|].
  destruct (send_error w cl m); [reflexivity | exact IH].
Qed.

Lemma send_failures_attempt (w : World) (cl : UdpClient) (l : list OscMessage) :
  send_failures_of (attempt w cl l) =
  match first_error w cl l with
  | Some _ => firstn 1 (send_failures_of (attempt w cl l))
  | None => []
  end /\
  (first_error w cl l = None <-> send_failures_of (attempt w cl l) = []) /\
  (List.length (send_failures_of (attempt w cl l)) <= 1)%nat.
Proof.
  unfold send_failures_of.
  induction l as [|m l IH]; cbn [attempt first_error].
  - cbn. intuition.
  - destruct (send_error w cl m) as [e|]; cbn.
    + repeat split; try discriminate; lia.
    + exact IH.
Qed.

Lemma sent_attempt_ok (w : World) (cl : UdpClient) (l : list OscMessage) :
  first_error w cl l = None -> attempt w cl l = map (fun m => (m, true)) l.
Proof.
  induction l as [|m l IH]; cbn [attempt first_error map]; [reflexivity|].
  destruct (send_error w cl m); [discriminate|]. intros H. rewrite IH by exact H.
  reflexivity.
Qed.

Lemma send_field_spec (w : World) (cl : UdpClient) (c : City) (suffix : string)
    (v : pyval) (a : App) :
  number_ok v = true ->
  send_field w cl ("/ukweather/" ++ slug c)%string suffix v a =
  (outcome_of (first_error w cl (field_message c suffix v)),
   add_osc (attempt w cl (field_message c suffix v)) a).
Proof.
  intros Hok. unfold send_field, field_message.
  destruct (Py.is_none v) eqn:Hn.
  - cbn. rewrite add_osc_nil. reflexivity.
  - destruct (number_ok_float v Hok Hn) as (n & Hn1 & Hn2).
    unfold bind, lift, Py.float. rewrite Hn1, Hn2.
    unfold send_message. cbn [attempt first_error].
    destruct (send_error w cl _) as [e|]; reflexivity.
Qed.

Lemma publish_spec (w : World) (cl : UdpClient) (c : City) (r : Reading) (a : App) :
  reading_ok r = true ->
  publish w cl c (temperature r) (wind_speed r) (wind_dir r) a =
  (outcome_of (first_error w cl (due_messages c r)),
   add_osc (attempt w cl (due_messages c r)) a).
Proof.
  unfold reading_ok. rewrite !andb_true_iff. intros [[Ht Hs] Hd].
  apply degrees_ok_number in Hd.
  unfold publish, due_messages, bind.
  rewrite (send_field_spec w cl c "/temperature" _ a Ht).
  rewrite !attempt_app, !first_error_app.
  destruct (first_error w cl (field_message c "/temperature" (temperature r))) as [e|].
  - cbn [outcome_of]. rewrite app_nil_r. reflexivity.
  - cbn [outcome_of]. rewrite (send_field_spec w cl c "/wind_speed" _ _ Hs).
    destruct (first_error w cl (field_message c "/wind_speed" (wind_speed r))) as [e|].
    + cbn [outcome_of]. rewrite add_osc_add_osc, app_nil_r. reflexivity.
    + cbn [outcome_of]. rewrite (send_field_spec w cl c "/wind_dir_deg" _ _ Hd).
      rewrite !add_osc_add_osc. reflexivity.
Qed.

(** ** One target *)

Lemma list_set_middle {A} (pre post : list A) (old x : A) :
  list_set (List.length pre) x (pre ++ old :: post) = pre ++ x :: post.
Proof. induction pre as [|y pre IH]; cbn; [reflexivity | now rewrite IH]. Qed.

Lemma cycle_body_spec (w : World) (client : option UdpClient) (c : City) (errors : Z)
    (a : App) (pre post : list Row) (old : Row) :
  city_ok w c = true ->
  tree a = pre ++ old :: post ->
  Py.lookup (slug c) (tree_items a) = Some (List.length pre) ->
  cycle_body w client c errors a =
  (Return (errors + city_errors w client c),
   add_osc (city_log w client c) (set_tree (pre ++ row_for w c :: post) a)).
Proof.
  intros Hok Htree Hiid.
  assert (Hlt : (List.length pre <? List.length (tree a))%nat = true).
  { apply Nat.ltb_lt. rewrite Htree, length_app. cbn. lia. }
  unfold cycle_body, city_ok, city_errors, city_log, row_for, bind, lift, gets in *.
  destruct (fetch_city_weather w c) as [[r|]|e]; [| |discriminate].
  - rewrite Hiid.
    rewrite (dir_string_ok (wind_dir r)), (one_decimal_ok (temperature r)),
      (one_decimal_ok (wind_speed r));
      try (unfold reading_ok in Hok; rewrite !andb_true_iff in Hok; tauto).
    unfold tree_item. rewrite Hlt, Htree, list_set_middle. fold (ok_row w c r).
    destruct client as [cl|].
    + unfold try_except, bind.
      rewrite publish_spec by exact Hok. cbn [tree].
      destruct (send_failures_attempt w cl (due_messages c r)) as (_ & Hiff & Hlen).
      destruct (first_error w cl (due_messages c r)) as [e|] eqn:Ef; cbn [outcome_of ret].
      * assert (Hne : send_failures_of (attempt w cl (due_messages c r)) <> [])
          by (intros Es; apply Hiff in Es; discriminate).
        destruct (send_failures_of _); [contradiction | reflexivity].
      * rewrite (proj1 Hiff eq_refl). rewrite Z.add_0_r. reflexivity.
    + unfold ret. rewrite add_osc_nil. cbn [send_failures_of filter map].
      rewrite Z.add_0_r. reflexivity.
  - rewrite Hiid. unfold tree_item. rewrite Hlt, Htree, list_set_middle.
    destruct client; cbv beta iota; unfold ret; rewrite add_osc_nil; reflexivity.
Qed.

(** ** The loop and the cycle *)

Lemma set_tree_same (a : App) (t : list Row) : tree a = t -> set_tree t a = a.
Proof. destruct a. cbn. intros ->. reflexivity. Qed.

Lemma cycle_loop_spec (w : World) (client : option UdpClient) (cities : list City) :
  forall (errors : Z) (a : App) (pre old post : list Row),
  forallb (city_ok w) cities = true ->
  tree a = pre ++ old ++ post ->
  List.length old = List.length cities ->
  (forall k c, nth_error cities k = Some c ->
               Py.lookup (slug c) (tree_items a) = Some (List.length pre + k)%nat) ->
  cycle_loop w client cities errors a =
  (Return (errors + tick_errors w client cities),
   add_osc (tick_log w client cities)
     (set_tree (pre ++ map (row_for w) cities ++ post) a)).
Proof.
  induction cities as [|c rest IH]; intros errors a pre old post Hok Htree Hlen Hidx.
  - destruct old; [|discriminate]. cbn [app] in Htree.
    cbn. unfold ret. rewrite Z.add_0_r, add_osc_nil.
    rewrite set_tree_same by exact Htree. reflexivity.
  - destruct old as [|o old']; [discriminate|].
    cbn [forallb] in Hok. apply andb_true_iff in Hok. destruct Hok as [Hc Hrest].
    cbn [cycle_loop]. unfold bind.
    rewrite (cycle_body_spec w client c errors a pre (old' ++ post) o Hc Htree).
    2:{ rewrite (Hidx O c eq_refl). f_equal. lia. }
    rewrite (IH _ _ (pre ++ [row_for w c]) old' post Hrest).
    + rewrite add_osc_set_tree. unfold tick_errors, tick_log.
      cbn [map fold_right List.concat]. rewrite <- !app_assoc. cbn [app].
      f_equal. f_equal. lia.
    + cbn [tree add_osc set_tree]. rewrite <- app_assoc. reflexivity.
    + cbn in Hlen. lia.
    + intros k c' Hk. cbn [tree_items add_osc set_tree].
      rewrite (Hidx (S k) c' Hk), length_app. cbn. f_equal. lia.
Qed.

Lemma indexed_from_spec (cities : list City) (items : list (string * nat)) :
  forall n, indexed_from n cities items = true ->
  forall k c, nth_error cities k = Some c ->
              Py.lookup (slug c) items = Some (n + k)%nat.
Proof.
  induction cities as [|c0 rest IH]; intros n H k c Hk.
  - destruct k; discriminate.
  - cbn [indexed_from] in H. apply andb_true_iff in H. destruct H as [H0 Hrest].
    destruct k as [|k].
    + injection Hk as <-. destruct (Py.lookup (slug c0) items) as [i|]; [|discriminate].
      apply Nat.eqb_eq in H0. subst i. f_equal. lia.
    + cbn [nth_error] in Hk. rewrite (IH (S n) Hrest k c Hk). f_equal. lia.
Qed.

Lemma update_cycle_over_spec (w : World) (cities : list City) (a : App) :
  running a = true ->
  table_built cities a = true ->
  forallb (city_ok w) cities = true ->
  update_cycle_over w cities a = (Return tt, after_tick w cities a).
Proof.
  intros Hrun Hb Hok. unfold table_built in Hb. apply andb_true_iff in Hb.
  destruct Hb as [Hlen Hidx]. apply Nat.eqb_eq in Hlen.
  pose proof (indexed_from_spec cities (tree_items a) O Hidx) as Hlook.
  assert (Hloop : forall a1, tree a1 = tree a -> tree_items a1 = tree_items a ->
            cycle_loop w (tick_client w a) cities 0 a1 =
            (Return (0 + tick_errors w (tick_client w a) cities),
             add_osc (tick_log w (tick_client w a) cities)
               (set_tree ([] ++ map (row_for w) cities ++ []) a1))).
  { intros a1 Ht Hi. apply cycle_loop_spec with (old := tree a); try assumption.
    - rewrite Ht, app_nil_r. reflexivity.
    - intros k c Hk. rewrite Hi. apply Hlook. exact Hk. }
  cbn [app] in Hloop. rewrite app_nil_r in Hloop.
  unfold update_cycle_over, after_tick, bind, gets. rewrite Hrun. cbn [negb].
  unfold try_except, new_client, bind, gets, tick_client in *.
  destruct (osc_port a) as [port|e] eqn:Ep.
  - destruct (client_error w (osc_host a) port) as [e|] eqn:Ec.
    + unfold throw, modify, ret. rewrite Hloop by reflexivity.
      cbn [running set_status add_osc set_tree]. rewrite Hrun. reflexivity.
    + unfold ret. rewrite Hloop by reflexivity.
      unfold modify. cbn [running set_status add_osc set_tree]. rewrite Hrun. reflexivity.
  - unfold modify, ret. rewrite Hloop by reflexivity.
    cbn [running set_status add_osc set_tree]. rewrite Hrun. reflexivity.
Qed.

Lemma compass_spec_int (z : Z) :
  compass_spec (inject_Z z) = nth (Z.to_nat (((4 * (z mod 360) + 45) / 90) mod 16)) dirs "?".
Proof.
  unfold compass_spec. do 3 f_equal.
  assert (H1 : Qfloor (inject_Z z / 360) = z / 360).
  { transitivity (Qfloor (z # 360)); [|reflexivity].
    apply Qfloor_comp. unfold Qeq, Qdiv, Qmult, Qinv, inject_Z. cbn [Qnum Qden]. lia. }
  rewrite H1.
  transitivity (Qfloor ((4 * (z mod 360) + 45) # 90)); [|reflexivity].
  apply Qfloor_comp. rewrite Z.mod_eq by lia.
  cbv [Qeq Qdiv Qmult Qplus Qminus Qopp Qinv inject_Z Qnum Qden].
  lia.
Qed.

Lemma label_table : forallb label_ok (seq 0 360) = true.
Proof. vm_compute. reflexivity. Qed.

Lemma deg_to_compass_int (z : Z) :
  deg_to_compass (PInt z) = Return (compass_spec (inject_Z z)).
Proof.
  rewrite compass_spec_int.
  assert (Hred : deg_to_compass (PInt z) = deg_to_compass (PInt (z mod 360))).
  { unfold deg_to_compass. cbn [Py.is_none]. now rewrite compass_index_reduce. }
  rewrite Hred.
  pose proof (Z.mod_pos_bound z 360 ltac:(lia)) as Hb.
  pose proof label_table as Ht. rewrite forallb_forall in Ht.
  specialize (Ht (Z.to_nat (z mod 360)) ltac:(apply in_seq; lia)).
  unfold label_ok in Ht. rewrite Z2Nat.id in Ht by lia.
  destruct (deg_to_compass (PInt (z mod 360))) as [l|e]; [|discriminate].
  apply String.eqb_eq in Ht. now rewrite Ht.
Qed.

(** ** What a cycle can do to the state, whatever the world answers

    Also when a malformed answer makes the cycle raise, all it has done is
    rewrite rows of its own targets, log sends, set the status line and arm
    the timer. *)

Lemma send_field_effect (w : World) (cl : UdpClient) (base suffix : string) (v : pyval)
    (a : App) :
  exists evs, snd (send_field w cl base suffix v a) = add_osc evs a.
Proof.
  unfold send_field. destruct (Py.is_none v).
  - exists []. now rewrite add_osc_nil.
  - unfold bind, lift. destruct (Py.float v) as [f|e].
    + unfold send_message. destruct (send_error w cl _); eexists; reflexivity.
    + exists []. now rewrite add_osc_nil.
Qed.

Lemma publish_effect (w : World) (cl : UdpClient) (c : City) (t ws wd : pyval) (a : App) :
  exists evs, snd (publish w cl c t ws wd a) = add_osc evs a.
Proof.
  unfold publish, bind.
  destruct (send_field_effect w cl ("/ukweather/" ++ slug c)%string "/temperature" t a)
    as [e1 H1].
  destruct (send_field _ _ _ "/temperature" t a) as [[[]|x] a1]; cbn [snd] in H1; subst a1;
    [|eexists; reflexivity].
  destruct (send_field_effect w cl ("/ukweather/" ++ slug c)%string "/wind_speed" ws
              (add_osc e1 a)) as [e2 H2].
  destruct (send_field _ _ _ "/wind_speed" ws _) as [[[]|x] a2]; cbn [snd] in H2; subst a2;
    [|rewrite add_osc_add_osc; eexists; reflexivity].
  destruct (send_field_effect w cl ("/ukweather/" ++ slug c)%string "/wind_dir_deg" wd
              (add_osc e2 (add_osc e1 a))) as [e3 H3].
  rewrite H3, !add_osc_add_osc. eexists; reflexivity.
Qed.

Lemma cycle_body_effect (w : World) (client : option UdpClient) (c : City) (errors : Z)
    (a : App) :
  exists row evs,
    col_city row = name c /\
    (snd (cycle_body w client c errors a) = a \/
     snd (cycle_body w client c errors a) = add_osc evs (row_update c row a)).
Proof.
  unfold cycle_body, bind, lift, gets, row_update.
  destruct (fetch_city_weather w c) as [[r|]|e].
  - destruct (dir_string (wind_dir r)) as [ds|e];
      [|exists (err_row w c), []; split; [reflexivity | left; reflexivity]].
    destruct (one_decimal (temperature r)) as [ts|e];
      [|exists (err_row w c), []; split; [reflexivity | left; reflexivity]].
    destruct (one_decimal (wind_speed r)) as [wss|e];
      [|exists (err_row w c), []; split; [reflexivity | left; reflexivity]].
    match goal with |- context [tree_item ?i ?row a] => set (rw := row) end.
    destruct (tree_item (Py.lookup (slug c) (tree_items a)) rw a) as [[[]|e] a1] eqn:Et;
      cbn [snd].
    + destruct client as [cl|].
      * unfold try_except, bind, ret.
        destruct (publish_effect w cl c (temperature r) (wind_speed r) (wind_dir r) a1)
          as [evs Hev].
        exists rw, evs. split; [reflexivity|]. right. rewrite Et. cbn [snd].
        destruct (publish w cl c _ _ _ a1) as [[[]|x] a2]; cbn [snd] in *; exact Hev.
      * exists rw, []. split; [reflexivity|]. right. rewrite Et. unfold ret. cbn [snd].
        now rewrite add_osc_nil.
    + exists rw, []. split; [reflexivity|]. right. rewrite Et. cbn [snd].
      now rewrite add_osc_nil.
  - match goal with |- context [tree_item ?i ?row a] => set (rw := row) end.
    exists rw, []. split; [reflexivity|]. right. rewrite add_osc_nil.
    destruct (tree_item (Py.lookup (slug c) (tree_items a)) rw a) as [[[]|e] a1];
      reflexivity.
  - exists (err_row w c), []. split; [reflexivity | left; reflexivity].
Qed.

Section Invariant.

(** An invariant that the effects of a cycle respect, the row updates for
    the targets that are [good]. *)
Variable I : App -> Prop.
Variable good : City -> Prop.
Hypothesis I_osc : forall evs a, I a -> I (add_osc evs a).
Hypothesis I_status : forall s a, I a -> I (set_status s a).
Hypothesis I_timer : forall ms a, I a -> I (add_timer ms a).
Hypothesis I_row :
  forall c row a, good c -> col_city row = name c -> I a -> I (row_update c row a).

Lemma invariant_cycle_body (w : World) (client : option UdpClient) (c : City) (errors : Z)
    (a : App) :
  good c -> I a -> I (snd (cycle_body w client c errors a)).
Proof.
  intros Hc Ha.
  destruct (cycle_body_effect w client c errors a) as (row & evs & Hrow & [->| ->]);
    auto.
Qed.

Lemma invariant_cycle_loop (w : World) (client : option UdpClient) (cities : list City) :
  Forall good cities ->
  forall errors a, I a -> I (snd (cycle_loop w client cities errors a)).
Proof.
  induction 1 as [|c rest Hc Hrest IH]; intros errors a Ha; cbn [cycle_loop].
  - exact Ha.
  - unfold bind. pose proof (invariant_cycle_body w client c errors a Hc Ha) as H1.
    destruct (cycle_body w client c errors a) as [[x|e] a1]; cbn [snd] in *; auto.
Qed.

Lemma invariant_update_cycle (w : World) (cities : list City) (a : App) :
  Forall good cities -> I a -> I (snd (update_cycle_over w cities a)).
Proof.
  intros Hgood Ha. unfold update_cycle_over, bind, gets.
  destruct (negb (running a)); [exact Ha|].
  assert (H1 : exists client a1,
             try_except (fun a0 => match new_client w a0 with
                                   | (Return x, a') => ret (Some x) a'
                                   | (Raise e, a') => (Raise e, a')
                                   end)
               (fun e a0 => match modify (set_status ("OSC error: " ++ exn_msg e)) a0 with
                            | (Return _, a') => ret None a'
                            | (Raise e0, a') => (Raise e0, a')
                            end) a = (Return client, a1) /\ I a1).
  { unfold try_except, new_client, bind, gets, throw, ret, modify.
    destruct (osc_port a) as [port|e].
    - destruct (client_error w (osc_host a) port); eexists; eexists; split;
        try reflexivity; auto.
    - eexists; eexists; split; [reflexivity | auto]. }
  destruct H1 as (client & a1 & -> & Ha1).
  pose proof (invariant_cycle_loop w client cities Hgood 0 a1 Ha1) as H2.
  destruct (cycle_loop w client cities 0 a1) as [[errors|e] a2]; cbn [snd] in *;
    [|exact H2].
  unfold modify, ret. destruct (running _); cbn [snd]; auto.
Qed.

End Invariant.

(** [running] is only ever changed by start and stop. *)
Lemma update_cycle_keeps_running (w : World) (cities : list City) (a : App) :
  running (snd (update_cycle_over w cities a)) = running a.
Proof.
  apply (invariant_update_cycle (fun a' => running a' = running a) (fun _ => True));
    try reflexivity; try (intros; assumption).
  - intros c row a0 _ _ H. unfold row_update, tree_item.
    destruct (Py.lookup (slug c) (tree_items a0)) as [i|]; [|exact H].
    destruct (i <? _)%nat; exact H.
  - apply Forall_forall. intros; exact Logic.I.
Qed.



Lemma fetch_try_fails (w : World) (c : City) :
  request_fails w c = true -> exists e, fetch_try w c = Raise e.
Proof.
  unfold request_fails, fetch_try, http_get, raise_for_status, json.
  destruct (requests_get w OPEN_METEO_URL (fetch_params c) 10) as [e|r]; cbn [rbind].
  - intros _. eexists; reflexivity.
  - destruct ((400 <=? status_code r) && (status_code r <? 600)); cbn [orb rbind raise].
    + intros _. eexists; reflexivity.
    + destruct (body_json r); [discriminate|]. intros _. eexists; reflexivity.
Qed.

Lemma fetch_try_returns (w : World) (c : City) :
  request_fails w c = false ->
  exists r data, requests_get w OPEN_METEO_URL (fetch_params c) 10 = GetReturns r /\
                 body_json r = Some data /\ fetch_try w c = Return data.
Proof.
  unfold request_fails, fetch_try, http_get, raise_for_status, json.
  destruct (requests_get w OPEN_METEO_URL (fetch_params c) 10) as [e|r]; [discriminate|].
  cbn [rbind].
  destruct ((400 <=? status_code r) && (status_code r <? 600)); [discriminate|].
  cbn [orb rbind]. destruct (body_json r) as [data|] eqn:Eb; [|discriminate].
  intros _. exists r, data. repeat split; solve [exact Eb | reflexivity].
Qed.

(** ** The claims about [fetch_city_weather] and [deg_to_compass] *)

(** C1 (as amended).  For every target, when the request raises (a
    transport error, a timeout), when the status is a 4xx or 5xx, or when
    the body is not JSON, the fetch returns [None] and raises nothing; in
    no other case does it return [None]; in particular a JSON object
    without ["current"] yields a reading whose fields are all absent. *)
Theorem fetch_failed_iff_request_fails (w : World) (c : City) :
  (request_fails w c = true -> fetch_city_weather w c = Return None) /\
  (request_fails w c = false -> fetch_city_weather w c <> Return None) /\
  (forall r d,
     request_fails w c = false ->
     requests_get w OPEN_METEO_URL (fetch_params c) 10 = GetReturns r ->
     body_json r = Some (PDict d) -> Py.lookup "current" d = None ->
     fetch_city_weather w c = Return (Some blank_reading)).
Proof.
  unfold fetch_city_weather. repeat split.
  - intros H. destruct (fetch_try_fails w c H) as [e ->]. reflexivity.
  - intros H. destruct (fetch_try_returns w c H) as (r & data & _ & _ & ->).
    destruct (Py.get data "current" (PDict [])) as [cur|e]; cbn [rbind]; [|discriminate].
    repeat (match goal with |- context [Py.get ?o ?k ?d] =>
              destruct (Py.get o k d); cbn [rbind]; [|discriminate] end).
    discriminate.
  - intros r d H Hr Hb Hc. destruct (fetch_try_returns w c H) as (r' & data & Hr' & Hb' & ->).
    rewrite Hr in Hr'. injection Hr' as <-. rewrite Hb in Hb'. injection Hb' as <-.
    unfold Py.get at 1. rewrite Hc. reflexivity.
Qed.

Lemma fetch_failed_iff_request_fails_witness :
  fetch_city_weather w_london_down london = Return None /\
  fetch_city_weather w_hollow london <> Return None.
Proof.
  split.
  - apply (proj1 (fetch_failed_iff_request_fails w_london_down london)).
    vm_compute. reflexivity.
  - apply (proj1 (proj2 (fetch_failed_iff_request_fails w_hollow london))).
    vm_compute. reflexivity.
Defined.

(** C1 as stated fails: an answer that lacks the expected structure, the
    empty object, is no failure: the fetch returns a reading, all of whose
    fields are absent. *)
Lemma fetch_without_current_is_ok :
  fetch_city_weather w_hollow london = Return (Some blank_reading) /\
  fetch_city_weather w_hollow london <> Return None.
Proof. split; [vm_compute; reflexivity | discriminate]. Qed.

(** A body that is JSON but not an object is outside the [try]: the
    attribute lookup raises to the caller. *)
Lemma fetch_non_object_body_raises :
  fetch_city_weather
    {| requests_get := fun _ _ _ => respond (PList []);
       client_error := fun _ _ => None;
       send_error := fun _ _ => None;
       strftime := fun _ => "12:00:00" |} london
  = Raise (Exn AttributeError "").
Proof. vm_compute. reflexivity. Qed.

(** C7.  When the request succeeds and the body is an object whose
    ["current"] is an object (or is missing), the fetch returns a reading,
    never [None]; each field of the reading is what ["current"] holds under
    its key, and a key that is missing gives an absent field. *)
Theorem fetch_keeps_absent_fields (w : World) (c : City) (r : Response)
    (d cur : list (string * pyval)) :
  requests_get w OPEN_METEO_URL (fetch_params c) 10 = GetReturns r ->
  raise_for_status r = Return tt ->
  body_json r = Some (PDict d) ->
  Py.get (PDict d) "current" (PDict []) = Return (PDict cur) ->
  fetch_city_weather w c =
    Return (Some {| temperature := dict_field cur "temperature_2m";
                    wind_speed := dict_field cur "wind_speed_10m";
                    wind_dir := dict_field cur "wind_direction_10m";
                    time := dict_field cur "time" |}) /\
  (forall k, Py.lookup k cur = None -> dict_field cur k = PNone).
Proof.
  intros Hr Hs Hb Hc. split.
  - unfold fetch_city_weather, fetch_try, http_get, json.
    rewrite Hr. cbn [rbind]. rewrite Hs. cbn [rbind]. rewrite Hb, Hc. cbn [rbind].
    unfold Py.get, dict_field.
    repeat (match goal with |- context [Py.lookup ?k cur] =>
              destruct (Py.lookup k cur); cbn [rbind] end); reflexivity.
  - intros k Hk. unfold dict_field. rewrite Hk. reflexivity.
Qed.

Lemma fetch_keeps_absent_fields_witness :
  fetch_city_weather w_partial london =
    Return (Some {| temperature := PFloat (PyFloat.dec 152 1); wind_speed := PNone;
                    wind_dir := PNone; time := PStr "2024-01-01T12:00" |}).
Proof.
  exact (proj1 (fetch_keeps_absent_fields w_partial london
                  {| status_code := 200; body_json := Some partial_body |}
                  [ ("current",
                     PDict [ ("temperature_2m", PFloat (PyFloat.dec 152 1));
                             ("time", PStr "2024-01-01T12:00") ]) ]
                  [ ("temperature_2m", PFloat (PyFloat.dec 152 1));
                    ("time", PStr "2024-01-01T12:00") ]
                  eq_refl eq_refl eq_refl eq_refl)).
Defined.

(** C2 as stated fails at its last example: 347.5 degrees is below the
    boundary of 348.75 and is named NNW, not N. *)
Lemma compass_347_5_is_NNW :
  deg_to_compass (PFloat (PyFloat.dec 3475 1)) = Return "NNW" /\
  deg_to_compass (PFloat (PyFloat.dec 3475 1)) <> Return "N".
Proof. split; [vm_compute; reflexivity | vm_compute; discriminate]. Qed.

(** C2 (as amended).  An absent input gives the unknown marker; for every
    whole number of degrees the label is the one the spec describes
    (normalise into [0,360), divide by 22.5, round half up, modulo 16,
    index the table); and compass(0.0) = N, compass(22.5) = NNE,
    compass(360.0) = N, compass(347.5) = NNW, the last being what the
    spec's own procedure gives at 347.5. *)
Theorem deg_to_compass_spec :
  deg_to_compass PNone = Return "?" /\
  (forall z : Z, deg_to_compass (PInt z) = Return (compass_spec (inject_Z z))) /\
  deg_to_compass (PFloat (PyFloat.of_Z 0)) = Return "N" /\
  deg_to_compass (PFloat (PyFloat.dec 225 1)) = Return "NNE" /\
  deg_to_compass (PFloat (PyFloat.of_Z 360)) = Return "N" /\
  deg_to_compass (PFloat (PyFloat.dec 3475 1)) = Return "NNW" /\
  compass_spec (695 # 2) = "NNW".
Proof.
  split; [reflexivity|]. split; [exact deg_to_compass_int|].
  repeat split; vm_compute; reflexivity.
Qed.

(** Two facts of binary64 arithmetic that keep the statement above to whole
    degrees: [deg % 360] of a tiny negative angle rounds to 360.0 itself,
    and just below a boundary [x + 0.5] rounds up to the next integer. *)
Lemma float_rem_can_reach_360 :
  Py.float_rem (S754_finite true 1 (-1074)) (PyFloat.of_Z 360) = Return (PyFloat.of_Z 360).
Proof. vm_compute. reflexivity. Qed.

Lemma compass_just_below_boundary :
  let x := SFpred PyFloat.prec PyFloat.emax (PyFloat.dec 1125 2) in
  deg_to_compass (PFloat x) = Return "NNE" /\ compass_spec (float_value x) = "N".
Proof. vm_compute. split; reflexivity. Qed.

(** C10.  For every finite float, negative ones included, the index
    [int((deg % 360) / 22.5 + 0.5) % 16] is computed without an exception
    and lies in [0,16), the table lookup is in bounds, and the function
    returns one of the sixteen labels. *)
Theorem deg_to_compass_total (deg : PyFloat.float) :
  PyFloat.is_finite deg = true ->
  exists i label,
    compass_index (PFloat deg) = Return i /\ 0 <= i < 16 /\
    nth_error dirs (Z.to_nat i) = Some label /\
    deg_to_compass (PFloat deg) = Return label /\ In label dirs.
Proof.
  intros Hf. destruct (compass_index_float deg Hf) as (i & Hi & Hb).
  destruct (index_dirs i Hb) as (l & Hl & Hin).
  exists i, l. unfold deg_to_compass. cbn [Py.is_none]. rewrite Hi. cbn [rbind].
  repeat split; try lia; try assumption.
  unfold Py.index in Hl. change (Z.of_nat (List.length dirs)) with 16 in Hl.
  destruct (Z.ltb_spec i 0); [lia|].
  destruct ((0 <=? i) && (i <? 16)); [|discriminate].
  destruct (nth_error dirs (Z.to_nat i)); [congruence | discriminate].
Qed.

Lemma deg_to_compass_total_witness :
  exists i label,
    compass_index (PFloat (PyFloat.dec (-7255) 1)) = Return i /\ 0 <= i < 16 /\
    nth_error dirs (Z.to_nat i) = Some label /\
    deg_to_compass (PFloat (PyFloat.dec (-7255) 1)) = Return label /\ In label dirs.
Proof.
  apply (deg_to_compass_total (PyFloat.dec (-7255) 1)). vm_compute. reflexivity.
Defined.

(** ** Counting errors and splitting the log *)

Lemma send_failures_of_app (l1 l2 : list (OscMessage * bool)) :
  send_failures_of (l1 ++ l2) = send_failures_of l1 ++ send_failures_of l2.
Proof. unfold send_failures_of. now rewrite filter_app, map_app. Qed.

Lemma city_errors_count (w : World) (client : option UdpClient) (c : City) :
  city_errors w client c =
  (if is_failed (fetch_city_weather w c) then 1 else 0)
  + Z.of_nat (List.length (send_failures_of (city_log w client c))).
Proof.
  unfold city_errors, city_log.
  destruct (fetch_city_weather w c) as [[r|]|e], client as [cl|]; cbn [is_failed];
    try reflexivity.
  destruct (send_failures_attempt w cl (due_messages c r)) as (_ & _ & Hlen).
  destruct (send_failures_of _) as [|x [|y l]]; cbn in *; try reflexivity. lia.
Qed.

Lemma tick_errors_count (w : World) (client : option UdpClient) (cities : list City) :
  tick_errors w client cities =
  Z.of_nat (List.length (failed_fetches w cities))
  + Z.of_nat (List.length (send_failures_of (tick_log w client cities))).
Proof.
  unfold tick_errors, tick_log, failed_fetches.
  induction cities as [|c rest IH]; [reflexivity|].
  cbn [map fold_right List.concat filter].
  rewrite IH, city_errors_count, send_failures_of_app, length_app.
  destruct (is_failed (fetch_city_weather w c)); cbn [List.length]; lia.
Qed.

Lemma tick_log_split (w : World) (client : option UdpClient) (l1 l2 : list City) (c : City) :
  tick_log w client (l1 ++ c :: l2) =
  tick_log w client l1 ++ city_log w client c ++ tick_log w client l2.
Proof. unfold tick_log. rewrite map_app, concat_app. reflexivity. Qed.

Lemma tick_log_no_client (w : World) (cities : list City) : tick_log w None cities = [].
Proof. unfold tick_log. induction cities; [reflexivity | exact IHcities]. Qed.

Lemma cycle_completes (w : World) (a : App) :
  running a = true ->
  table_built CITIES a = true ->
  forallb (city_ok w) CITIES = true ->
  _update_cycle w a = (Return tt, after_tick w CITIES a).
Proof. intros. unfold _update_cycle. now apply update_cycle_over_spec. Qed.

(** ** The claims about a cycle *)



(** C3 (as amended).  The error count in the status line is the number of
    failed fetches plus the number of [send_message] calls that raised in
    the tick; a destination for which no client can be made leads to no
    call, so it adds nothing to the count. *)
Theorem status_counts_failed_fetches_and_raised_sends (w : World) (a : App) :
  running a = true ->
  table_built CITIES a = true ->
  forallb (city_ok w) CITIES = true ->
  exists tick,
    osc_log (snd (_update_cycle w a)) = osc_log a ++ tick /\
    status_var (snd (_update_cycle w a)) =
      status_line w (Z.of_nat (List.length (failed_fetches w CITIES))
                     + Z.of_nat (List.length (send_failures_of tick))) /\
    (tick_client w a = None -> tick = []).
Proof.
  intros Hrun Hb Hok. rewrite (cycle_completes w a Hrun Hb Hok). cbn [snd].
  exists (tick_log w (tick_client w a) CITIES). split; [reflexivity|]. split.
  - change (status_var (after_tick w CITIES a))
      with (status_line w (tick_errors w (tick_client w a) CITIES)).
    now rewrite tick_errors_count.
  - intros ->. apply tick_log_no_client.
Qed.

Lemma status_counts_failed_fetches_and_raised_sends_witness :
  exists tick,
    osc_log (snd (_update_cycle w_dropped running_app)) = osc_log running_app ++ tick /\
    status_var (snd (_update_cycle w_dropped running_app)) =
      status_line w_dropped
        (Z.of_nat (List.length (failed_fetches w_dropped CITIES))
         + Z.of_nat (List.length (send_failures_of tick))) /\
    (tick_client w_dropped running_app = None -> tick = []).
Proof.
  apply (status_counts_failed_fetches_and_raised_sends w_dropped running_app);
    vm_compute; reflexivity.
Defined.

(** C3 as stated fails: with a destination for which no client can be made,
    no fetch fails, none of the thirty messages that are due goes out, and
    the status line still reports no error. *)
Lemma refused_client_is_not_counted :
  status_var (snd (_update_cycle w_refused running_app)) = "Last update OK at 12:00:00"%string /\
  failed_fetches w_refused CITIES = [] /\
  List.length (all_due w_refused CITIES) = 30%nat /\
  sent_of (osc_log (snd (_update_cycle w_refused running_app))) = [] /\
  status_var (snd (_update_cycle w_refused running_app))
    <> status_line w_refused
         (spec_error_count w_refused CITIES
            (osc_log (snd (_update_cycle w_refused running_app)))).
Proof. vm_compute. repeat split; discriminate. Qed.






(** ** Start and stop *)

Lemma start_updates_idle (w : World) (a : App) :
  running a = false ->
  start_updates w a =
  match osc_port a with
  | Return port => if port_in_range port then _update_cycle w (started a)
                   else (Return tt, refused a)
  | Raise _ => (Return tt, refused a)
  end.
Proof.
  intros Hrun. unfold start_updates, bind, gets, try_except. rewrite Hrun.
  destruct (osc_port a) as [port|e]; [|reflexivity].
  destruct (port_in_range port); reflexivity.
Qed.

(** C5 (as amended).  A start while idle checks the port and nothing else.
    A port that is not an integer in [1,65535] is refused: an error dialog
    is shown and the state is otherwise untouched, so the machine stays
    idle and no cycle runs.  With a port in range the start is accepted
    whatever the refresh interval is: the first cycle runs from the started
    state and the machine is running afterwards. *)
Theorem start_checks_port_only (w : World) (a : App) :
  running a = false ->
  ((forall port, osc_port a = Return port -> port_in_range port = false) ->
   start_updates w a = (Return tt, refused a) /\
   running (snd (start_updates w a)) = false /\
   tree (snd (start_updates w a)) = tree a /\
   osc_log (snd (start_updates w a)) = osc_log a /\
   timers (snd (start_updates w a)) = timers a) /\
  (forall port, osc_port a = Return port -> port_in_range port = true ->
   start_updates w a = _update_cycle w (started a) /\
   running (snd (start_updates w a)) = true).
Proof.
  intros Hrun. rewrite (start_updates_idle w a Hrun). split.
  - intros Hbad.
    assert (H : match osc_port a with
                | Return port => if port_in_range port then _update_cycle w (started a)
                                 else (Return tt, refused a)
                | Raise _ => (Return tt, refused a)
                end = (Return tt, refused a)).
    { destruct (osc_port a) as [port|e]; [|reflexivity].
      now rewrite (Hbad port eq_refl). }
    rewrite H. cbn [snd]. repeat split. exact Hrun.
  - intros port Hp Hin. rewrite Hp, Hin. split; [reflexivity|].
    unfold _update_cycle. rewrite update_cycle_keeps_running. reflexivity.
Qed.

Lemma start_checks_port_only_witness :
  start_updates w_fair (set_osc_port (Return 70000) new_app)
    = (Return tt, refused (set_osc_port (Return 70000) new_app)) /\
  running (snd (start_updates w_fair (set_refresh_seconds 5 new_app))) = true.
Proof.
  split.
  - apply (proj1 (start_checks_port_only w_fair (set_osc_port (Return 70000) new_app)
                    eq_refl)).
    intros port Hp. injection Hp as <-. reflexivity.
  - apply (proj2 (start_checks_port_only w_fair (set_refresh_seconds 5 new_app) eq_refl)
             9000); reflexivity.
Defined.

(** C5 as stated fails: the slider callback stores an interval of 5 seconds
    as it stands, and a start with that interval is accepted: no dialog,
    the machine runs, the first cycle has published and armed the timer at
    5000 ms. *)
Lemma start_accepts_interval_of_5 :
  refresh_seconds (snd (_on_refresh_scale_move (Return (PyFloat.of_Z 5)) new_app)) = 5 /\
  running (snd (_on_refresh_scale_move (Return (PyFloat.of_Z 5)) new_app)) = false /\
  running (snd (start_updates w_fair (set_refresh_seconds 5 new_app))) = true /\
  dialogs (snd (start_updates w_fair (set_refresh_seconds 5 new_app))) = [] /\
  List.length (osc_log (snd (start_updates w_fair (set_refresh_seconds 5 new_app)))) = 30%nat /\
  timers (snd (start_updates w_fair (set_refresh_seconds 5 new_app))) = [5000].
Proof. vm_compute. repeat split. Qed.

(** * Further properties of the code *)

(** ** The compass beyond the claims *)

(** X1.  On whole degrees the compass is periodic in 360 and always names one
    of the sixteen points, negative and arbitrarily large angles
    included. *)
Theorem compass_int_periodic (z k : Z) :
  deg_to_compass (PInt (z + 360 * k)) = deg_to_compass (PInt z) /\
  exists label, deg_to_compass (PInt z) = Return label /\ In label dirs.
Proof.
  split.
  - unfold deg_to_compass. cbn [Py.is_none].
    rewrite (compass_index_reduce (z + 360 * k)), (compass_index_reduce z).
    replace ((z + 360 * k) mod 360) with (z mod 360); [reflexivity|].
    rewrite (Z.mul_comm 360 k). symmetry. apply Z.mod_add. lia.
  - unfold deg_to_compass. cbn [Py.is_none].
    destruct (compass_index_int z) as (i & -> & Hi). cbn [rbind].
    destruct (index_dirs i Hi) as (l & Hl & Hin). exists l. auto.
Qed.

(** X3.  Every whole multiple of 45 degrees is named by the principal wind it
    points at: N, NE, E, SE, S, SW, W, NW, round and round. *)
Theorem compass_principal_winds (k : Z) :
  deg_to_compass (PInt (45 * k)) = Return (nth (Z.to_nat (2 * (k mod 8))) dirs "?").
Proof.
  rewrite deg_to_compass_int, compass_spec_int.
  pose proof (Z.mod_pos_bound k 8 ltac:(lia)) as Hb.
  replace ((45 * k) mod 360) with (45 * (k mod 8))
    by (change 360 with (45 * 8); rewrite Z.mul_mod_distr_l by lia; reflexivity).
  replace ((4 * (45 * (k mod 8)) + 45) / 90) with (2 * (k mod 8)).
  - rewrite Z.mod_small by lia. reflexivity.
  - apply Z.div_unique with (r := 45); lia.
Qed.

(** X4.  On a float that is not finite the function raises: [ValueError],
    from [int()] of the NaN that [%] gives. *)
Theorem compass_raises_on_non_finite (f : PyFloat.float) :
  PyFloat.is_finite f = false ->
  deg_to_compass (PFloat f) = Raise (Exn ValueError "").
Proof. destruct f as [s|s| |s m e]; try discriminate; intros _; vm_compute; reflexivity. Qed.

Lemma compass_raises_on_non_finite_witness :
  deg_to_compass (PFloat (S754_infinity false)) = Raise (Exn ValueError "").
Proof. apply compass_raises_on_non_finite. reflexivity. Defined.

Lemma agree_on_degrees_table : forallb agree_on_degrees (seq 0 1081) = true.
Proof. vm_compute. reflexivity. Qed.

(** X5.  For a whole number of degrees between -360 and 720 the label does
    not depend on whether the provider wrote it as an integer or as a
    float. *)
Theorem compass_int_or_float (z : Z) :
  -360 <= z <= 720 ->
  deg_to_compass (PFloat (PyFloat.of_Z z)) = deg_to_compass (PInt z).
Proof.
  intros Hz. pose proof agree_on_degrees_table as Ht. rewrite forallb_forall in Ht.
  specialize (Ht (Z.to_nat (z + 360)) ltac:(apply in_seq; lia)).
  unfold agree_on_degrees in Ht. rewrite Z2Nat.id in Ht by lia.
  replace (z + 360 - 360) with z in Ht by lia.
  destruct (deg_to_compass (PFloat (PyFloat.of_Z z))) as [a|];
    destruct (deg_to_compass (PInt z)) as [b|]; try discriminate.
  apply String.eqb_eq in Ht. now subst.
Qed.

Lemma compass_int_or_float_witness :
  deg_to_compass (PFloat (PyFloat.of_Z 250)) = deg_to_compass (PInt 250).
Proof. apply compass_int_or_float. lia. Defined.

(** ** The sectors of the compass *)

Lemma dirs_distinct (i j : Z) :
  0 <= i < 16 -> 0 <= j < 16 ->
  nth (Z.to_nat i) dirs "?"%string = nth (Z.to_nat j) dirs "?"%string -> i = j.
Proof.
  intros Hi Hj.
  assert (Ei : exists n, (n < 16)%nat /\ i = Z.of_nat n) by (exists (Z.to_nat i); lia).
  assert (Ej : exists n, (n < 16)%nat /\ j = Z.of_nat n) by (exists (Z.to_nat j); lia).
  destruct Ei as (n & Hn & ->), Ej as (m & Hm & ->). rewrite !Nat2Z.id.
  intros H. f_equal.
  do 16 (destruct n as [|n]; [do 16 (destruct m as [|m]; [first [reflexivity | discriminate]|]); lia|]).
  lia.
Qed.

(** X2.  On whole degrees each of the sixteen points owns the sector of 22.5
    degrees centred on its bearing, closed at its lower and open at its
    upper end: point [i] is named exactly for the angles [d], taken modulo
    360, with [22.5 i - 11.25 <= d < 22.5 i + 11.25], North also for
    [d >= 348.75]. *)
Theorem compass_sectors (z i : Z) :
  0 <= i < 16 ->
  (deg_to_compass (PInt z) = Return (nth (Z.to_nat i) dirs "?"%string) <->
   90 * i - 45 <= 4 * (z mod 360) < 90 * i + 45 \/ (i = 0 /\ 1395 <= 4 * (z mod 360))).
Proof.
  intros Hi. rewrite deg_to_compass_int, compass_spec_int.
  pose proof (Z.mod_pos_bound z 360 ltac:(lia)) as Hk.
  set (k := z mod 360) in *.
  pose proof (Z.div_mod (4 * k + 45) 90 ltac:(lia)) as Hq.
  pose proof (Z.mod_pos_bound (4 * k + 45) 90 ltac:(lia)) as Hr.
  set (q := (4 * k + 45) / 90) in *.
  assert (Hq16 : 0 <= q <= 16) by lia.
  pose proof (Z.mod_pos_bound q 16 ltac:(lia)) as Hm.
  assert (Hmod : q mod 16 = if q =? 16 then 0 else q).
  { destruct (Z.eqb_spec q 16) as [->|Hne]; [reflexivity|]. apply Z.mod_small. lia. }
  split.
  - intros H. injection H as H. apply dirs_distinct in H; [|lia|lia].
    rewrite Hmod in H. destruct (Z.eqb_spec q 16); lia.
  - intros H. f_equal. f_equal. f_equal. rewrite Hmod.
    destruct (Z.eqb_spec q 16); lia.
Qed.

Lemma compass_sectors_witness :
  deg_to_compass (PInt 250) = Return (nth (Z.to_nat 11) dirs "?"%string) <->
  90 * 11 - 45 <= 4 * (250 mod 360) < 90 * 11 + 45 \/ (11 = 0 /\ 1395 <= 4 * (250 mod 360)).
Proof. apply (compass_sectors 250 11). lia. Defined.

(** ** The refresh slider *)

Lemma digits_53_bounds (m : positive) :
  Zpos (digits2_pos m) = 53 -> 2 ^ 52 <= Zpos m < 2 ^ 53.
Proof.
  intros H. rewrite digits2_pos_log2 in H.
  assert (Hl : Z.log2 (Zpos m) = 52) by lia.
  pose proof (Z.log2_spec (Zpos m) ltac:(lia)) as Hs. rewrite Hl in Hs.
  exact Hs.
Qed.

Lemma scale_ends :
  SCALE_FROM = S754_finite false 5629499534213120 (-49) /\
  SCALE_TO = S754_finite false 5277655813324800 (-44).
Proof. vm_compute. split; reflexivity. Qed.

Lemma SFleb_positive (m1 : positive) (e1 : Z) (m2 : positive) (e2 : Z) :
  SFleb (S754_finite false m1 e1) (S754_finite false m2 e2) = true ->
  e1 < e2 \/ (e1 = e2 /\ Zpos m1 <= Zpos m2).
Proof.
  unfold SFleb, SFcompare.
  destruct (Z.compare_spec e1 e2) as [He|He|He]; [|left; exact He|discriminate].
  intros H. right. split; [exact He|].
  change (Pos.compare_cont Eq m1 m2) with (m1 ?= m2)%positive in H.
  destruct (Pos.compare_spec m1 m2); try discriminate; lia.
Qed.

Lemma div_in_range (m c lo hi : Z) :
  0 < c -> c * lo <= m -> m < c * (hi + 1) -> lo <= m / c <= hi.
Proof.
  intros Hc Hlo Hhi. split.
  - apply Z.div_le_lower_bound; assumption.
  - apply Z.lt_succ_r. apply Z.div_lt_upper_bound; assumption.
Qed.

Lemma on_scale_trunc (f : PyFloat.float) :
  on_scale f = true -> exists n, PyFloat.trunc f = Some n /\ 10 <= n <= 300.
Proof.
  unfold on_scale. destruct scale_ends as [-> ->].
  rewrite !andb_true_iff. intros [[Hv Hlo] Hhi].
  destruct f as [s|s| |s m e]; try (destruct s; discriminate); try discriminate.
  destruct s; [discriminate|].
  apply SFleb_positive in Hlo. apply SFleb_positive in Hhi.
  unfold PyFloat.valid, valid_binary, bounded, canonical_mantissa in Hv.
  apply andb_true_iff in Hv. destruct Hv as [Hc _]. apply Z.eqb_eq in Hc.
  unfold fexp, emin, PyFloat.prec, PyFloat.emax in Hc.
  assert (Hd : Zpos (digits2_pos m) = 53) by lia.
  pose proof (digits_53_bounds m Hd) as Hm. clear Hc Hd.
  cbn [PyFloat.trunc cond_Zopp]. eexists. split; [reflexivity|].
  change (2 ^ 52) with 4503599627370496 in Hm.
  change (2 ^ 53) with 9007199254740992 in Hm.
  assert (Hcase : e = -49 \/ e = -48 \/ e = -47 \/ e = -46 \/ e = -45 \/ e = -44) by lia.
  destruct Hcase as [->|[->|[->|[->|[->| ->]]]]].
  - change (Z.shiftl (Zpos m) (-49)) with (Z.shiftr (Zpos m) 49).
    rewrite Z.shiftr_div_pow2 by lia. change (2 ^ 49) with 562949953421312. apply div_in_range; lia.
  - change (Z.shiftl (Zpos m) (-48)) with (Z.shiftr (Zpos m) 48).
    rewrite Z.shiftr_div_pow2 by lia. change (2 ^ 48) with 281474976710656. apply div_in_range; lia.
  - change (Z.shiftl (Zpos m) (-47)) with (Z.shiftr (Zpos m) 47).
    rewrite Z.shiftr_div_pow2 by lia. change (2 ^ 47) with 140737488355328. apply div_in_range; lia.
  - change (Z.shiftl (Zpos m) (-46)) with (Z.shiftr (Zpos m) 46).
    rewrite Z.shiftr_div_pow2 by lia. change (2 ^ 46) with 70368744177664. apply div_in_range; lia.
  - change (Z.shiftl (Zpos m) (-45)) with (Z.shiftr (Zpos m) 45).
    rewrite Z.shiftr_div_pow2 by lia. change (2 ^ 45) with 35184372088832. apply div_in_range; lia.
  - change (Z.shiftl (Zpos m) (-44)) with (Z.shiftr (Zpos m) 44).
    rewrite Z.shiftr_div_pow2 by lia. change (2 ^ 44) with 17592186044416. apply div_in_range; lia.
Qed.

Lemma refresh_scale_move_effect (float_value : result PyFloat.float) (a : App) :
  exists n, _on_refresh_scale_move float_value a = (Return tt, set_refresh_seconds n a).
Proof.
  unfold _on_refresh_scale_move, try_except, bind, lift, modify.
  destruct float_value as [f|e]; [|eexists; reflexivity].
  destruct (Py.int (PFloat f)); eexists; reflexivity.
Qed.

(** X6.  The slider's callback never raises and touches nothing but
    [refresh_seconds]; it stores the position cut to an integer, falls back
    to 60 when the position is not a number (or is infinite or NaN), and
    for every position on the scale, from 10 to 300, what it stores lies
    in [10,300]. *)
Theorem refresh_scale_move_spec (float_value : result PyFloat.float) (a : App) :
  exists n,
    _on_refresh_scale_move float_value a = (Return tt, set_refresh_seconds n a) /\
    match float_value with
    | Return f => if PyFloat.is_finite f then PyFloat.trunc f = Some n
                  else n = DEFAULT_REFRESH_SECONDS
    | Raise _ => n = DEFAULT_REFRESH_SECONDS
    end /\
    (forall f, float_value = Return f -> on_scale f = true -> 10 <= n <= 300).
Proof.
  unfold _on_refresh_scale_move, try_except, bind, lift, modify.
  destruct float_value as [f|e].
  - unfold Py.int. cbn [Py.as_num].
    destruct f as [s|s| |s m x]; cbn [PyFloat.trunc PyFloat.is_finite].
    + exists 0. split; [reflexivity|]. split; [reflexivity|]. intros g [= <-] Hg.
      destruct (on_scale_trunc _ Hg) as (n & [= <-] & Hn). exact Hn.
    + exists DEFAULT_REFRESH_SECONDS. split; [reflexivity|]. split; [reflexivity|].
      intros g [= <-] Hg. destruct (on_scale_trunc _ Hg) as (n & Hn & _). discriminate.
    + exists DEFAULT_REFRESH_SECONDS. split; [reflexivity|]. split; [reflexivity|].
      intros g [= <-] Hg. destruct (on_scale_trunc _ Hg) as (n & Hn & _). discriminate.
    + eexists. split; [reflexivity|]. split; [reflexivity|].
      intros g [= <-] Hg. destruct (on_scale_trunc _ Hg) as (n & [= <-] & Hn). exact Hn.
  - exists DEFAULT_REFRESH_SECONDS. split; [reflexivity|]. split; [reflexivity|].
    discriminate.
Qed.

Lemma refresh_scale_move_spec_witness :
  exists n,
    _on_refresh_scale_move (Return (PyFloat.dec 1207 1)) new_app
      = (Return tt, set_refresh_seconds n new_app) /\
    10 <= n <= 300.
Proof.
  destruct (refresh_scale_move_spec (Return (PyFloat.dec 1207 1)) new_app)
    as (n & Hrun & _ & Hrange).
  exists n. split; [exact Hrun|].
  apply (Hrange (PyFloat.dec 1207 1)); [reflexivity | vm_compute; reflexivity].
Defined.

(** ** Fetching: where the exception escapes *)

(** X7.  The fetch lets an exception out exactly when the request went
    through and the JSON is not of the expected shape: the body is no
    object, or its ["current"] is there and is no object.  It is then an
    [AttributeError]; in every other case the fetch returns. *)
Theorem fetch_raises_iff_malformed (w : World) (c : City) :
  (answer_malformed w c = true ->
   fetch_city_weather w c = Raise (Exn AttributeError "")) /\
  (answer_malformed w c = false -> exists o, fetch_city_weather w c = Return o).
Proof.
  unfold answer_malformed, fetch_city_weather, fetch_try, http_get, raise_for_status, json.
  destruct (requests_get w OPEN_METEO_URL (fetch_params c) 10) as [e|r]; cbn [rbind].
  - split; [discriminate | intros _; eexists; reflexivity].
  - destruct ((400 <=? status_code r) && (status_code r <? 600)); cbn [negb andb rbind raise].
    + split; [discriminate | intros _; eexists; reflexivity].
    + destruct (body_json r) as [data|]; cbn [rbind raise].
      * destruct data as [|b|z|f|s|l|d]; cbn [body_malformed Py.get rbind raise];
          try (split; [intros _; reflexivity | discriminate]).
        destruct (Py.lookup "current" d) as [cur|]; cbn [rbind].
        -- destruct cur; cbn [is_dict negb Py.get rbind raise];
             try (split; [intros _; reflexivity | discriminate]).
           split; [discriminate|]. intros _.
           repeat (match goal with |- context [Py.lookup ?k ?d'] =>
                     destruct (Py.lookup k d'); cbn [rbind] end);
             eexists; reflexivity.
        -- split; [discriminate | intros _; eexists; reflexivity].
      * split; [discriminate | intros _; eexists; reflexivity].
Qed.

Lemma fetch_raises_iff_malformed_witness :
  fetch_city_weather w_garbled manchester = Raise (Exn AttributeError "") /\
  exists o, fetch_city_weather w_garbled london = Return o.
Proof.
  split.
  - apply (proj1 (fetch_raises_iff_malformed w_garbled manchester)).
    vm_compute. reflexivity.
  - apply (proj2 (fetch_raises_iff_malformed w_garbled london)).
    vm_compute. reflexivity.
Defined.

(** ** A cycle that meets an answer outside the data model *)

Lemma number_not_ok_raises (v : pyval) :
  number_ok v = false -> exists e, one_decimal v = Raise e.
Proof.
  unfold number_ok, one_decimal, Py.format_f, Py.float.
  destruct v; cbn [Py.is_none Py.as_num]; try discriminate;
    try (intros _; eexists; reflexivity);
    match goal with |- context [Py.to_float ?n] => destruct (Py.to_float n) end;
    try discriminate; intros _; eexists; reflexivity.
Qed.

Lemma float_of_int_finite (z : Z) (f : PyFloat.float) :
  Py.float_of_int z = Return f -> PyFloat.is_finite f = true.
Proof.
  unfold Py.float_of_int. destruct (PyFloat.is_finite (PyFloat.of_Z z)) eqn:E;
    [|discriminate]. intros [= <-]. exact E.
Qed.

Lemma degrees_not_ok_raises (v : pyval) :
  degrees_ok v = false -> exists e, dir_string v = Raise e.
Proof.
  unfold degrees_ok, dir_string, Py.format_f, Py.float.
  destruct v as [|b|z|f|s|l|d]; cbn [Py.is_none Py.as_num Py.to_float]; try discriminate;
    try (intros _; eexists; reflexivity).
  - destruct (Py.float_of_int (if b then 1 else 0)) as [f|e] eqn:E.
    + intros H. rewrite (float_of_int_finite _ _ E) in H. discriminate.
    + intros _. eexists; reflexivity.
  - destruct (Py.float_of_int z) as [f|e] eqn:E.
    + intros H. rewrite (float_of_int_finite _ _ E) in H. discriminate.
    + intros _. eexists; reflexivity.
  - intros H. cbn [rbind].
    assert (Hc : deg_to_compass (PFloat f) = Raise (Exn ValueError "")).
    { destruct f; try discriminate; vm_compute; reflexivity. }
    rewrite Hc. eexists; reflexivity.
Qed.

Lemma cycle_body_raises (w : World) (client : option UdpClient) (c : City) (errors : Z)
    (a : App) :
  city_ok w c = false -> exists e, cycle_body w client c errors a = (Raise e, a).
Proof.
  unfold city_ok, cycle_body, bind, lift, gets.
  destruct (fetch_city_weather w c) as [[r|]|e]; [|discriminate|].
  - unfold reading_ok. intros H.
    destruct (degrees_ok (wind_dir r)) eqn:Hd.
    + rewrite (dir_string_ok _ Hd).
      destruct (number_ok (temperature r)) eqn:Ht.
      * rewrite (one_decimal_ok _ Ht).
        destruct (number_ok (wind_speed r)) eqn:Hs; [discriminate|].
        destruct (number_not_ok_raises _ Hs) as [e ->]. eexists; reflexivity.
      * destruct (number_not_ok_raises _ Ht) as [e ->]. eexists; reflexivity.
    + destruct (degrees_not_ok_raises _ Hd) as [e ->]. eexists; reflexivity.
  - intros _. eexists; reflexivity.
Qed.

Lemma cycle_loop_app (w : World) (client : option UdpClient) (l1 l2 : list City) :
  forall errors a,
  cycle_loop w client (l1 ++ l2) errors a =
  match cycle_loop w client l1 errors a with
  | (Return errors', a') => cycle_loop w client l2 errors' a'
  | (Raise e, a') => (Raise e, a')
  end.
Proof.
  induction l1 as [|c l1 IH]; intros errors a; [reflexivity|].
  cbn [app cycle_loop]. unfold bind.
  destruct (cycle_body w client c errors a) as [[x|e] a1]; [apply IH | reflexivity].
Qed.

Lemma table_built_prefix (l1 l2 : list City) (a : App) :
  table_built (l1 ++ l2) a = true ->
  tree a = firstn (List.length l1) (tree a) ++ skipn (List.length l1) (tree a) /\
  List.length (firstn (List.length l1) (tree a)) = List.length l1 /\
  (forall k c, nth_error l1 k = Some c ->
               Py.lookup (slug c) (tree_items a) = Some (0 + k)%nat).
Proof.
  unfold table_built. rewrite andb_true_iff. intros [Hlen Hidx].
  apply Nat.eqb_eq in Hlen. rewrite length_app in Hlen.
  split; [symmetry; apply firstn_skipn|]. split.
  - apply firstn_length_le. lia.
  - intros k c Hk. apply (indexed_from_spec (l1 ++ l2) (tree_items a) O Hidx).
    rewrite nth_error_app1; [exact Hk|]. apply nth_error_Some. congruence.
Qed.

Lemma cycle_loop_stops (w : World) (client : option UdpClient) (l1 l2 : list City)
    (c : City) (errors : Z) (a : App) :
  table_built (l1 ++ c :: l2) a = true ->
  forallb (city_ok w) l1 = true -> city_ok w c = false ->
  exists e,
    cycle_loop w client (l1 ++ c :: l2) errors a =
    (Raise e, add_osc (tick_log w client l1) (set_tree (rows_after w l1 (tree a)) a)).
Proof.
  intros Hb Hok Hc. destruct (table_built_prefix l1 (c :: l2) a Hb) as (Ht & Hl & Hlook).
  rewrite cycle_loop_app.
  rewrite (cycle_loop_spec w client l1 errors a []
             (firstn (List.length l1) (tree a)) (skipn (List.length l1) (tree a))
             Hok Ht Hl Hlook).
  cbn [cycle_loop app]. unfold bind.
  destruct (cycle_body_raises w client c (errors + tick_errors w client l1)
              (add_osc (tick_log w client l1)
                 (set_tree (map (row_for w) l1 ++ skipn (List.length l1) (tree a)) a)) Hc)
    as [e ->].
  exists e. reflexivity.
Qed.

Lemma update_cycle_stops (w : World) (a : App)
    (l1 l2 : list City) (c : City) :
  running a = true ->
  table_built CITIES a = true ->
  CITIES = l1 ++ c :: l2 ->
  forallb (city_ok w) l1 = true ->
  city_ok w c = false ->
  exists e,
    fst (_update_cycle w a) = Raise e /\
    timers (snd (_update_cycle w a)) = timers a /\
    running (snd (_update_cycle w a)) = true /\
    tree (snd (_update_cycle w a)) = rows_after w l1 (tree a) /\
    osc_log (snd (_update_cycle w a)) = osc_log a ++ tick_log w (tick_client w a) l1 /\
    (tick_client w a <> None -> status_var (snd (_update_cycle w a)) = status_var a).
Proof.
  intros Hrun Hb Hsplit Hok Hc. unfold _update_cycle. rewrite Hsplit in Hb |- *.
  assert (Hloop : forall a1, tree a1 = tree a -> tree_items a1 = tree_items a ->
            exists e, cycle_loop w (tick_client w a) (l1 ++ c :: l2) 0 a1 =
              (Raise e, add_osc (tick_log w (tick_client w a) l1)
                          (set_tree (rows_after w l1 (tree a)) a1))).
  { intros a1 Ht Hi. rewrite <- Ht. apply cycle_loop_stops; try assumption.
    unfold table_built in *. now rewrite Ht, Hi. }
  unfold update_cycle_over, bind, gets. rewrite Hrun. cbn [negb].
  unfold try_except, new_client, bind, gets, tick_client in *.
  destruct (osc_port a) as [port|e0].
  - destruct (client_error w (osc_host a) port) as [e0|].
    + unfold throw, modify, ret.
      destruct (Hloop (set_status ("OSC error: " ++ exn_msg e0) a) eq_refl eq_refl)
        as [e ->].
      exists e. cbn [fst snd]. repeat split; try assumption. intros H. now elim H.
    + unfold ret. destruct (Hloop a eq_refl eq_refl) as [e ->].
      exists e. cbn [fst snd]. repeat split; assumption.
  - unfold modify, ret.
    destruct (Hloop (set_status ("OSC error: " ++ exn_msg e0) a) eq_refl eq_refl)
      as [e ->].
    exists e. cbn [fst snd]. repeat split; try assumption. intros H. now elim H.
Qed.

(** X8.  When the answer for a target is outside the data model (the fetch
    raises, or a field is no number) the cycle stops there with the
    exception: the targets before it have their rows and messages, the
    ones from it on keep their old rows, no timer is armed although the
    machine still says it is running, and no summary reaches the status
    line. *)
Theorem cycle_stops_at_malformed_answer (w : World) (a : App)
    (l1 l2 : list City) (c : City) :
  running a = true ->
  table_built CITIES a = true ->
  CITIES = l1 ++ c :: l2 ->
  forallb (city_ok w) l1 = true ->
  city_ok w c = false ->
  exists e,
    fst (_update_cycle w a) = Raise e /\
    timers (snd (_update_cycle w a)) = timers a /\
    running (snd (_update_cycle w a)) = true /\
    tree (snd (_update_cycle w a)) = rows_after w l1 (tree a) /\
    osc_log (snd (_update_cycle w a)) = osc_log a ++ tick_log w (tick_client w a) l1 /\
    (tick_client w a <> None -> status_var (snd (_update_cycle w a)) = status_var a).
Proof. apply update_cycle_stops. Qed.

Lemma cycle_stops_at_malformed_answer_witness :
  exists e,
    fst (_update_cycle w_text running_app) = Raise e /\
    timers (snd (_update_cycle w_text running_app)) = timers running_app /\
    running (snd (_update_cycle w_text running_app)) = true /\
    tree (snd (_update_cycle w_text running_app))
      = rows_after w_text [london] (tree running_app) /\
    osc_log (snd (_update_cycle w_text running_app))
      = osc_log running_app ++ tick_log w_text (tick_client w_text running_app) [london] /\
    (tick_client w_text running_app <> None ->
     status_var (snd (_update_cycle w_text running_app)) = status_var running_app).
Proof.
  apply (cycle_stops_at_malformed_answer w_text running_app [london] (tl (tl CITIES))
           manchester); vm_compute; reflexivity.
Defined.

Lemma first_failure {A} (p : A -> bool) (l : list A) :
  forallb p l = false ->
  exists l1 x l2, l = l1 ++ x :: l2 /\ forallb p l1 = true /\ p x = false.
Proof.
  induction l as [|y l IH]; [discriminate|]. cbn [forallb].
  destruct (p y) eqn:Hy.
  - intros H. destruct (IH H) as (l1 & x & l2 & -> & H1 & Hx).
    exists (y :: l1), x, l2. cbn [forallb app]. rewrite Hy. auto.
  - intros _. exists [], y, l. auto.
Qed.

(** X9.  A cycle of a running machine runs to its end exactly when every
    answer is within the data model: each fetch returns, and the fields of
    each reading are absent or numbers, the wind direction a finite one. *)
Theorem cycle_completes_iff_answers_ok (w : World) (a : App) :
  running a = true ->
  table_built CITIES a = true ->
  (fst (_update_cycle w a) = Return tt <-> forallb (city_ok w) CITIES = true).
Proof.
  intros Hrun Hb. split.
  - intros Hret. destruct (forallb (city_ok w) CITIES) eqn:Hok; [reflexivity|].
    destruct (first_failure _ _ Hok) as (l1 & c & l2 & Hsplit & H1 & Hc).
    destruct (update_cycle_stops w a l1 l2 c Hrun Hb Hsplit H1 Hc)
      as (e & He & _).
    rewrite He in Hret. discriminate.
  - intros Hok. now rewrite (cycle_completes w a Hrun Hb Hok).
Qed.

Lemma cycle_completes_iff_answers_ok_witness :
  fst (_update_cycle w_fair running_app) = Return tt <->
  forallb (city_ok w_fair) CITIES = true.
Proof.
  apply (cycle_completes_iff_answers_ok w_fair running_app); vm_compute; reflexivity.
Defined.

(** ** What a cycle leaves alone, and what it counts *)

Lemma city_errors_range (w : World) (client : option UdpClient) (c : City) :
  0 <= city_errors w client c <= 1.
Proof.
  unfold city_errors. destruct (fetch_city_weather w c) as [[r|]|e];
    try destruct (send_failures_of _); lia.
Qed.

Lemma tick_errors_range (w : World) (client : option UdpClient) (cities : list City) :
  0 <= tick_errors w client cities <= Z.of_nat (List.length cities).
Proof.
  unfold tick_errors. induction cities as [|c rest IH]; cbn [map fold_right List.length].
  - lia.
  - pose proof (city_errors_range w client c). lia.
Qed.

Lemma status_line_ok (w : World) (n : Z) :
  status_line w n = ("Last update OK at " ++ strftime w "%H:%M:%S")%string <-> n = 0.
Proof.
  unfold status_line. split.
  - destruct (Z.eqb_spec n 0); [auto|]. cbn. discriminate.
  - intros ->. reflexivity.
Qed.

Lemma no_send_failures (log : list (OscMessage * bool)) :
  send_failures_of log = [] <-> forall ev, In ev log -> snd ev = true.
Proof.
  unfold send_failures_of. induction log as [|[m b] log IH]; cbn.
  - split; [intros _ ev [] | reflexivity].
  - destruct b; cbn.
    + rewrite IH. split.
      * intros H ev [<-|Hin]; [reflexivity | auto].
      * intros H ev Hin. apply H. right. exact Hin.
    + split; [discriminate|]. intros H. specialize (H (m, false) (or_introl eq_refl)).
      discriminate.
Qed.

(** X10.  A target is counted at most once in a tick, so the error count lies
    between 0 and the number of targets; and the status line reads
    "Last update OK" exactly when no fetch failed and no send raised. *)
Theorem error_count_range (w : World) (a : App) :
  running a = true ->
  table_built CITIES a = true ->
  forallb (city_ok w) CITIES = true ->
  exists n tick,
    status_var (snd (_update_cycle w a)) = status_line w n /\
    osc_log (snd (_update_cycle w a)) = osc_log a ++ tick /\
    0 <= n <= Z.of_nat (List.length CITIES) /\
    (status_var (snd (_update_cycle w a))
       = ("Last update OK at " ++ strftime w "%H:%M:%S")%string
     <-> failed_fetches w CITIES = [] /\ forall ev, In ev tick -> snd ev = true).
Proof.
  intros Hrun Hb Hok. rewrite (cycle_completes w a Hrun Hb Hok). cbn [snd].
  exists (tick_errors w (tick_client w a) CITIES), (tick_log w (tick_client w a) CITIES).
  split; [reflexivity|]. split; [reflexivity|]. split; [apply tick_errors_range|].
  change (status_var (after_tick w CITIES a))
    with (status_line w (tick_errors w (tick_client w a) CITIES)).
  rewrite status_line_ok, tick_errors_count, <- no_send_failures.
  split.
  - intros H. split; apply length_zero_iff_nil; lia.
  - intros [-> ->]. reflexivity.
Qed.

Lemma error_count_range_witness :
  exists n tick,
    status_var (snd (_update_cycle w_dropped running_app)) = status_line w_dropped n /\
    osc_log (snd (_update_cycle w_dropped running_app)) = osc_log running_app ++ tick /\
    0 <= n <= Z.of_nat (List.length CITIES) /\
    (status_var (snd (_update_cycle w_dropped running_app))
       = ("Last update OK at " ++ strftime w_dropped "%H:%M:%S")%string
     <-> failed_fetches w_dropped CITIES = [] /\ forall ev, In ev tick -> snd ev = true).
Proof.
  apply (error_count_range w_dropped running_app); vm_compute; reflexivity.
Defined.

Lemma row_update_settings (c : City) (row : Row) (a : App) :
  settings_of (row_update c row a) = settings_of a.
Proof.
  unfold row_update, tree_item. destruct (Py.lookup (slug c) (tree_items a)) as [i|];
    [|reflexivity]. destruct (i <? _)%nat; reflexivity.
Qed.

(** X11.  Whatever the world answers, and also when it raises, a cycle never
    changes the running flag, the refresh interval, the destination, the
    index of the table or the buttons, and never shows a dialog. *)
Theorem cycle_leaves_settings (w : World) (a : App) :
  settings_of (snd (_update_cycle w a)) = settings_of a.
Proof.
  unfold _update_cycle.
  apply (invariant_update_cycle (fun a' => settings_of a' = settings_of a)
           (fun _ => True)).
  - intros evs a0 H. exact H.
  - intros s a0 H. exact H.
  - intros ms a0 H. exact H.
  - intros c row a0 _ _ H. now rewrite row_update_settings.
  - apply Forall_forall. intros; exact Logic.I.
  - reflexivity.
Qed.

(** ** Timers *)

Lemma cycle_loop_keeps_clock (w : World) (client : option UdpClient) (cities : list City)
    (errors : Z) (a : App) :
  timers (snd (cycle_loop w client cities errors a)) = timers a /\
  settings_of (snd (cycle_loop w client cities errors a)) = settings_of a.
Proof.
  apply (invariant_cycle_loop
           (fun a' => timers a' = timers a /\ settings_of a' = settings_of a)
           (fun _ => True)).
  - intros evs a0 H. exact H.
  - intros c row a0 _ _ [H1 H2]. split; [|now rewrite row_update_settings].
    unfold row_update, tree_item.
    destruct (Py.lookup (slug c) (tree_items a0)) as [i|]; [|exact H1].
    destruct (i <? _)%nat; exact H1.
  - apply Forall_forall. intros; exact Logic.I.
  - split; reflexivity.
Qed.

Lemma update_cycle_timers (w : World) (cities : list City) (a : App) :
  (running a = false -> update_cycle_over w cities a = (Return tt, a)) /\
  (running a = true -> fst (update_cycle_over w cities a) = Return tt ->
   timers (snd (update_cycle_over w cities a)) = timers a ++ [refresh_seconds a * 1000]) /\
  (forall e, fst (update_cycle_over w cities a) = Raise e ->
   timers (snd (update_cycle_over w cities a)) = timers a).
Proof.
  unfold update_cycle_over, bind, gets.
  destruct (running a) eqn:Hrun; cbn [negb].
  2:{ split; [reflexivity|]. split; [discriminate|]. intros e H. discriminate. }
  assert (H1 : exists client a1,
             try_except (fun a0 => match new_client w a0 with
                                   | (Return x, a') => ret (Some x) a'
                                   | (Raise e, a') => (Raise e, a')
                                   end)
               (fun e a0 => match modify (set_status ("OSC error: " ++ exn_msg e)) a0 with
                            | (Return _, a') => ret None a'
                            | (Raise e0, a') => (Raise e0, a')
                            end) a = (Return client, a1) /\
             timers a1 = timers a /\ settings_of a1 = settings_of a).
  { unfold try_except, new_client, bind, gets, throw, ret, modify.
    destruct (osc_port a) as [port|e].
    - destruct (client_error w (osc_host a) port); eexists; eexists; split;
        try reflexivity; auto.
    - eexists; eexists; split; [reflexivity | auto]. }
  destruct H1 as (client & a1 & -> & Ht1 & Hs1).
  destruct (cycle_loop_keeps_clock w client cities 0 a1) as [Ht2 Hs2].
  destruct (cycle_loop w client cities 0 a1) as [[errors|e] a2]; cbn [fst snd] in *.
  - unfold modify, ret. cbn [running set_status].
    assert (Hr : running a2 = true /\ refresh_seconds a2 = refresh_seconds a).
    { unfold settings_of in Hs1, Hs2. rewrite Hs1 in Hs2. injection Hs2 as H1 H2.
      split; congruence. }
    destruct Hr as [-> Hr]. cbn [fst snd timers add_timer set_status refresh_seconds].
    split; [discriminate|]. split; [|discriminate].
    intros _ _. congruence.
  - split; [discriminate|]. split; [discriminate|]. intros _ _. congruence.
Qed.

(** X12.  A cycle arms the timer once, at [refresh_seconds * 1000] ms, when a
    running machine gets to its end; it arms none when it raises, and when
    the machine is idle (the timer a stop left pending has fired) it does
    nothing at all. *)
Theorem cycle_arms_one_timer (w : World) (a : App) :
  (running a = false -> _update_cycle w a = (Return tt, a)) /\
  (running a = true -> fst (_update_cycle w a) = Return tt ->
   timers (snd (_update_cycle w a)) = timers a ++ [refresh_seconds a * 1000]) /\
  (forall e, fst (_update_cycle w a) = Raise e ->
   timers (snd (_update_cycle w a)) = timers a).
Proof. apply update_cycle_timers. Qed.

Lemma cycle_arms_one_timer_witness :
  _update_cycle w_fair new_app = (Return tt, new_app) /\
  timers (snd (_update_cycle w_fair running_app)) = timers running_app ++ [60 * 1000] /\
  timers (snd (_update_cycle w_garbled running_app)) = timers running_app.
Proof.
  split; [|split].
  - apply (proj1 (cycle_arms_one_timer w_fair new_app)). reflexivity.
  - apply (proj1 (proj2 (cycle_arms_one_timer w_fair running_app)));
      vm_compute; reflexivity.
  - apply (proj2 (proj2 (cycle_arms_one_timer w_garbled running_app))
             (Exn AttributeError "")).
    vm_compute. reflexivity.
Defined.

(** ** Start, stop and toggle *)

Lemma stop_updates_spec (a : App) :
  stop_updates a = (Return tt, if running a then stopped a else a).
Proof.
  unfold stop_updates, bind, gets. destruct (running a); reflexivity.
Qed.

(** X13.  A stop never raises and leaves the table, the send log and the
    pending timers as they are (it cancels nothing); after it the machine
    is idle, the callback of a timer still pending does nothing, and a
    second stop changes nothing. *)
Theorem stop_leaves_timer_harmless (w : World) (a : App) :
  fst (stop_updates a) = Return tt /\
  running (snd (stop_updates a)) = false /\
  timers (snd (stop_updates a)) = timers a /\
  tree (snd (stop_updates a)) = tree a /\
  osc_log (snd (stop_updates a)) = osc_log a /\
  _update_cycle w (snd (stop_updates a)) = (Return tt, snd (stop_updates a)) /\
  stop_updates (snd (stop_updates a)) = (Return tt, snd (stop_updates a)).
Proof.
  rewrite !stop_updates_spec. cbn [fst snd].
  destruct (running a) eqn:Hrun.
  - repeat split; try reflexivity.
  - rewrite Hrun. repeat split; try assumption; try reflexivity.
    unfold _update_cycle, update_cycle_over, bind, gets. now rewrite Hrun.
Qed.

Lemma start_updates_running (w : World) (a : App) :
  running a = true -> start_updates w a = (Return tt, a).
Proof. intros H. unfold start_updates, bind, gets. now rewrite H. Qed.

Lemma toggle_spec (w : World) (a : App) :
  _toggle_start_stop w a = if running a then stop_updates a else start_updates w a.
Proof. unfold _toggle_start_stop, bind, gets. destruct (running a); reflexivity. Qed.

(** X14.  The toggle flips the machine: from running it stops it; from idle
    with a port in range it starts it, whatever the world answers to the
    first cycle, and a second toggle brings it back to idle; from idle with
    a port out of range, or unreadable, it stays idle behind the error
    dialog. *)
Theorem toggle_flips (w w' : World) (a : App) :
  (running a = true -> _toggle_start_stop w a = (Return tt, stopped a)) /\
  (running a = false ->
   forall port, osc_port a = Return port -> port_in_range port = true ->
   running (snd (_toggle_start_stop w a)) = true /\
   running (snd (_toggle_start_stop w' (snd (_toggle_start_stop w a)))) = false) /\
  (running a = false ->
   (forall port, osc_port a = Return port -> port_in_range port = false) ->
   _toggle_start_stop w a = (Return tt, refused a)).
Proof.
  split; [|split].
  - intros Hrun. rewrite toggle_spec, Hrun, stop_updates_spec, Hrun. reflexivity.
  - intros Hrun port Hp Hin.
    assert (H1 : running (snd (_toggle_start_stop w a)) = true).
    { rewrite toggle_spec, Hrun, (start_updates_idle w a Hrun), Hp, Hin.
      unfold _update_cycle. now rewrite update_cycle_keeps_running. }
    split; [exact H1|].
    rewrite (toggle_spec w'), H1, stop_updates_spec, H1. reflexivity.
  - intros Hrun Hbad. rewrite toggle_spec, Hrun, (start_updates_idle w a Hrun).
    destruct (osc_port a) as [port|e]; [|reflexivity].
    now rewrite (Hbad port eq_refl).
Qed.

Lemma toggle_flips_witness :
  running (snd (_toggle_start_stop w_garbled new_app)) = true /\
  running (snd (_toggle_start_stop w_fair (snd (_toggle_start_stop w_garbled new_app))))
    = false.
Proof.
  apply (proj1 (proj2 (toggle_flips w_garbled w_fair new_app)) eq_refl 9000);
    reflexivity.
Defined.

Lemma after_tick_table_built (w : World) (a : App) :
  table_built CITIES a = true -> table_built CITIES (after_tick w CITIES a) = true.
Proof.
  unfold table_built. rewrite !andb_true_iff. intros [_ Hi]. split; [|exact Hi].
  change (tree (after_tick w CITIES a)) with (map (row_for w) CITIES).
  rewrite length_map. apply Nat.eqb_refl.
Qed.

(** X15.  A stop cancels no timer, so a start, a stop and a start again leave
    two timers pending on a running machine: from then on two chains of
    cycles run side by side. *)
Theorem restart_doubles_the_timer (w1 w2 : World) (a : App) (port : Z) :
  running a = false ->
  table_built CITIES a = true ->
  osc_port a = Return port -> port_in_range port = true ->
  forallb (city_ok w1) CITIES = true ->
  forallb (city_ok w2) CITIES = true ->
  running (snd (start_updates w2 (snd (stop_updates (snd (start_updates w1 a))))))
    = true /\
  timers (snd (start_updates w2 (snd (stop_updates (snd (start_updates w1 a))))))
    = timers a ++ [refresh_seconds a * 1000; refresh_seconds a * 1000].
Proof.
  intros Hrun Hb Hp Hin Hok1 Hok2.
  rewrite (start_updates_idle w1 a Hrun), Hp, Hin.
  rewrite (cycle_completes w1 (started a) eq_refl Hb Hok1). cbn [snd].
  rewrite stop_updates_spec.
  change (running (after_tick w1 CITIES (started a))) with true. cbv iota. cbn [snd].
  set (s := stopped (after_tick w1 CITIES (started a))).
  rewrite (start_updates_idle w2 s eq_refl).
  change (osc_port s) with (osc_port a). rewrite Hp, Hin.
  rewrite (cycle_completes w2 (started s) eq_refl
             (after_tick_table_built w1 (started a) Hb) Hok2).
  subst s.
  cbn [snd]. split; [reflexivity|].
  cbn [timers after_tick add_timer set_status add_osc set_tree started stopped
       set_running set_buttons refresh_seconds].
  rewrite <- app_assoc. reflexivity.
Qed.

Lemma restart_doubles_the_timer_witness :
  running (snd (start_updates w_fair
                  (snd (stop_updates (snd (start_updates w_fair new_app)))))) = true /\
  timers (snd (start_updates w_fair
                 (snd (stop_updates (snd (start_updates w_fair new_app))))))
    = timers new_app ++ [refresh_seconds new_app * 1000; refresh_seconds new_app * 1000].
Proof.
  apply (restart_doubles_the_timer w_fair w_fair new_app 9000); vm_compute; reflexivity.
Defined.

Lemma row_update_buttons (c : City) (row : Row) (a : App) :
  buttons_mirror a -> buttons_mirror (row_update c row a).
Proof.
  unfold row_update, tree_item. destruct (Py.lookup (slug c) (tree_items a)) as [i|];
    [|auto]. destruct (i <? _)%nat; auto.
Qed.

Lemma update_cycle_buttons (w : World) (a : App) :
  buttons_mirror a -> buttons_mirror (snd (_update_cycle w a)).
Proof.
  intros H. unfold _update_cycle.
  apply (invariant_update_cycle buttons_mirror (fun _ => True)); auto.
  - intros c row a0 _ _. apply row_update_buttons.
  - apply Forall_forall. intros; exact Logic.I.
Qed.

(** X16.  The buttons always tell the state: in the application as built, and
    after any start, stop, toggle, slider move or cycle, in any world,
    Start is enabled exactly when the machine is idle and Stop exactly when
    it is running. *)
Theorem buttons_mirror_running (w : World) (float_value : result PyFloat.float) (a : App) :
  buttons_mirror new_app /\
  (buttons_mirror a ->
   buttons_mirror (snd (start_updates w a)) /\
   buttons_mirror (snd (stop_updates a)) /\
   buttons_mirror (snd (_toggle_start_stop w a)) /\
   buttons_mirror (snd (_update_cycle w a)) /\
   buttons_mirror (snd (_on_refresh_scale_move float_value a))).
Proof.
  split; [split; reflexivity|]. intros H.
  assert (Hstart : buttons_mirror (snd (start_updates w a))).
  { destruct (running a) eqn:Hrun.
    - now rewrite (start_updates_running w a Hrun).
    - rewrite (start_updates_idle w a Hrun).
      destruct (osc_port a) as [port|e]; [|exact H].
      destruct (port_in_range port); [|exact H].
      apply update_cycle_buttons. split; reflexivity. }
  assert (Hstop : buttons_mirror (snd (stop_updates a))).
  { rewrite stop_updates_spec. destruct (running a); [split; reflexivity | exact H]. }
  split; [exact Hstart|]. split; [exact Hstop|]. split; [|split].
  - rewrite toggle_spec. destruct (running a); assumption.
  - apply update_cycle_buttons. exact H.
  - destruct (refresh_scale_move_effect float_value a) as [n ->]. exact H.
Qed.

Lemma buttons_mirror_running_witness :
  buttons_mirror (snd (start_updates w_garbled new_app)) /\
  buttons_mirror (snd (stop_updates new_app)) /\
  buttons_mirror (snd (_toggle_start_stop w_garbled new_app)) /\
  buttons_mirror (snd (_update_cycle w_garbled new_app)) /\
  buttons_mirror (snd (_on_refresh_scale_move (Raise (Exn ValueError "")) new_app)).
Proof.
  apply (proj2 (buttons_mirror_running w_garbled (Raise (Exn ValueError "")) new_app)).
  split; reflexivity.
Defined.

(** ** Building the table *)

Lemma lookup_dict_set_same {A} (k : string) (v : A) (d : list (string * A)) :
  Py.lookup k (dict_set k v d) = Some v.
Proof.
  induction d as [|[k' v'] d IH]; cbn [dict_set Py.lookup].
  - now rewrite String.eqb_refl.
  - destruct (String.eqb k k') eqn:E; cbn [Py.lookup]; rewrite ?String.eqb_refl, ?E; auto.
Qed.

Lemma lookup_dict_set_other {A} (k k' : string) (v : A) (d : list (string * A)) :
  k' <> k -> Py.lookup k' (dict_set k v d) = Py.lookup k' d.
Proof.
  intros Hne. apply String.eqb_neq in Hne.
  induction d as [|[k0 v0] d IH]; cbn [dict_set Py.lookup].
  - now rewrite Hne.
  - destruct (String.eqb k k0) eqn:E; cbn [Py.lookup].
    + apply String.eqb_eq in E. subst k0. now rewrite Hne.
    + now rewrite IH.
Qed.

Lemma insert_cities_spec (cities : list City) :
  forall a,
  insert_cities cities a =
  (Return tt,
   set_tree_items (items_after (List.length (tree a)) cities (tree_items a))
     (set_tree (tree a ++ map dash_row cities) a)).
Proof.
  induction cities as [|c rest IH]; intros a.
  - destruct a. cbn. now rewrite app_nil_r.
  - cbn [insert_cities]. unfold bind, tree_insert, modify. rewrite IH.
    cbn [tree tree_items set_tree set_tree_items map items_after].
    rewrite length_app, Nat.add_1_r, <- app_assoc. reflexivity.
Qed.

Lemma items_after_other (cities : list City) :
  forall n d s, ~ In s (map slug cities) ->
  Py.lookup s (items_after n cities d) = Py.lookup s d.
Proof.
  induction cities as [|c rest IH]; intros n d s Hs; [reflexivity|].
  cbn [items_after]. cbn [map In] in Hs.
  rewrite IH by tauto. apply lookup_dict_set_other. intros ->. tauto.
Qed.

Lemma items_after_lookup (cities : list City) :
  forall n d, NoDup (map slug cities) ->
  forall k c, nth_error cities k = Some c ->
  Py.lookup (slug c) (items_after n cities d) = Some (n + k)%nat.
Proof.
  induction cities as [|c0 rest IH]; intros n d Hnd k c Hk; [destruct k; discriminate|].
  cbn [map] in Hnd. inversion Hnd as [|? ? Hnotin Hnd']; subst.
  cbn [items_after]. destruct k as [|k].
  - injection Hk as <-. rewrite items_after_other by exact Hnotin.
    rewrite lookup_dict_set_same. f_equal. lia.
  - cbn [nth_error] in Hk. rewrite (IH (S n) _ Hnd' k c Hk). f_equal. lia.
Qed.

Lemma indexed_from_intro (cities : list City) (items : list (string * nat)) :
  forall n,
  (forall k c, nth_error cities k = Some c ->
               Py.lookup (slug c) items = Some (n + k)%nat) ->
  indexed_from n cities items = true.
Proof.
  induction cities as [|c rest IH]; intros n H; [reflexivity|].
  cbn [indexed_from]. rewrite (H O c eq_refl), Nat.add_0_r, Nat.eqb_refl. cbn [andb].
  apply IH. intros k c' Hk. rewrite (H (S k) c' Hk). f_equal. lia.
Qed.

Lemma indexed_from_distinct (cities : list City) (items : list (string * nat)) (n : nat) :
  indexed_from n cities items = true -> NoDup (map slug cities).
Proof.
  intros H. pose proof (indexed_from_spec cities items n H) as Hlook.
  apply NoDup_nth_error. intros i j Hi Hij.
  rewrite length_map in Hi. apply nth_error_Some in Hi.
  destruct (nth_error cities i) as [ci|] eqn:Ei; [|congruence].
  rewrite !nth_error_map, Ei in Hij. cbn [option_map] in Hij.
  destruct (nth_error cities j) as [cj|] eqn:Ej; [|discriminate].
  cbn [option_map] in Hij. injection Hij as Hs.
  pose proof (Hlook i ci Ei) as H1. pose proof (Hlook j cj Ej) as H2.
  rewrite Hs in H1. rewrite H1 in H2. injection H2. lia.
Qed.

(** X17.  Building the table for a registry gives one "-" row per target, in
    registry order, and the index from slug to row is right for every
    target exactly when the slugs of the registry are distinct; those of
    [CITIES] are, so the application starts with its table built. *)
Theorem build_table_indexes_rows (cities : list City) :
  fst (insert_cities cities blank_app) = Return tt /\
  tree (snd (insert_cities cities blank_app)) = map dash_row cities /\
  (table_built cities (snd (insert_cities cities blank_app)) = true
   <-> NoDup (map slug cities)) /\
  table_built CITIES new_app = true.
Proof.
  rewrite insert_cities_spec. cbn [fst snd tree blank_app set_tree set_tree_items app].
  split; [reflexivity|]. split; [reflexivity|]. split; [|vm_compute; reflexivity].
  unfold table_built. cbn [tree tree_items set_tree set_tree_items blank_app List.length].
  rewrite length_map, Nat.eqb_refl. cbn [andb]. split.
  - apply indexed_from_distinct.
  - intros Hnd. apply indexed_from_intro.
    intros k c Hk. now apply items_after_lookup.
Qed.

(** ** Cycles target by target, whether or not they reach the end *)

Lemma served_all (w : World) (l : list City) :
  forallb (city_ok w) l = true -> served w l = l.
Proof.
  induction l as [|c l IH]; cbn [forallb served]; [reflexivity|].
  destruct (city_ok w c); [|discriminate]. intros H. now rewrite IH.
Qed.

Lemma served_app (w : World) (l1 l2 : list City) :
  forallb (city_ok w) l1 = true -> served w (l1 ++ l2) = l1 ++ served w l2.
Proof.
  induction l1 as [|c l1 IH]; cbn [forallb served app]; [reflexivity|].
  destruct (city_ok w c); [|discriminate]. intros H. now rewrite IH.
Qed.

Lemma rows_after_all (w : World) (cities : list City) (t : list Row) :
  List.length t = List.length cities -> rows_after w cities t = map (row_for w) cities.
Proof.
  intros H. unfold rows_after. rewrite skipn_all2 by lia. apply app_nil_r.
Qed.

(** A cycle of a running machine serves the targets up to the first whose
    answer is outside the data model, and no other. *)
Lemma update_cycle_served (w : World) (a : App) :
  running a = true ->
  table_built CITIES a = true ->
  tree (snd (_update_cycle w a)) = rows_after w (served w CITIES) (tree a) /\
  osc_log (snd (_update_cycle w a)) =
    osc_log a ++ tick_log w (tick_client w a) (served w CITIES).
Proof.
  intros Hrun Hb. destruct (forallb (city_ok w) CITIES) eqn:Hok.
  - rewrite (cycle_completes w a Hrun Hb Hok), (served_all _ _ Hok). cbn [snd].
    split; [|reflexivity].
    change (tree (after_tick w CITIES a)) with (map (row_for w) CITIES).
    symmetry. apply rows_after_all.
    unfold table_built in Hb. apply andb_true_iff in Hb. now apply Nat.eqb_eq.
  - destruct (first_failure _ _ Hok) as (l1 & c & l2 & Hs & H1 & Hc).
    destruct (update_cycle_stops w a l1 l2 c Hrun Hb Hs H1 Hc)
      as (e & _ & _ & _ & Ht & Hl & _).
    assert (Hsv : served w CITIES = l1).
    { rewrite Hs, (served_app w l1 (c :: l2) H1). cbn [served]. rewrite Hc.
      apply app_nil_r. }
    rewrite Hsv. split; assumption.
Qed.

Lemma tick_errors_split (w : World) (client : option UdpClient) (l1 l2 : list City)
    (c : City) :
  tick_errors w client (l1 ++ c :: l2) =
  tick_errors w client l1 + city_errors w client c + tick_errors w client l2.
Proof.
  unfold tick_errors. induction l1 as [|x l1 IH]; cbn [app map fold_right]; [lia|].
  rewrite IH. lia.
Qed.

Lemma errors_at_nonneg (w : World) (client : option UdpClient) (l : list City) :
  0 <= errors_at w client l.
Proof. unfold errors_at. lia. Qed.

(** The row of a target in a table that is built. *)
Lemma row_of_target (l1 l2 : list City) (c : City) (s : App) :
  table_built (l1 ++ c :: l2) s = true ->
  exists pre old post,
    tree s = pre ++ old :: post /\
    Py.lookup (slug c) (tree_items s) = Some (List.length pre).
Proof.
  unfold table_built. rewrite andb_true_iff. intros [Hlen Hidx].
  apply Nat.eqb_eq in Hlen. rewrite length_app in Hlen. cbn [List.length] in Hlen.
  assert (Hk : nth_error (l1 ++ c :: l2) (List.length l1) = Some c).
  { rewrite nth_error_app2 by lia. now rewrite Nat.sub_diag. }
  pose proof (indexed_from_spec _ _ O Hidx _ _ Hk) as Hlook. cbn [Nat.add] in Hlook.
  destruct (nth_error (tree s) (List.length l1)) as [old|] eqn:Hold.
  - destruct (nth_error_split _ _ Hold) as (pre & post & Ht & Hp).
    exists pre, old, post. split; [exact Ht|]. now rewrite Hp.
  - apply nth_error_None in Hold. lia.
Qed.

(** The calls of a target whose message [m] is the first that cannot be
    sent. *)
Lemma failed_send_log (w : World) (cl : UdpClient) (c : City) (r : Reading)
    (before after : list OscMessage) (m : OscMessage) (e : exn) :
  fetch_city_weather w c = Return (Some r) ->
  due_messages c r = before ++ m :: after ->
  first_error w cl before = None ->
  send_error w cl m = Some e ->
  city_log w (Some cl) c = map (fun x => (x, true)) before ++ [(m, false)] /\
  city_errors w (Some cl) c = 1.
Proof.
  intros Hr Hdue Hbefore Hm.
  assert (Hlog : city_log w (Some cl) c = map (fun x => (x, true)) before ++ [(m, false)]).
  { unfold city_log. rewrite Hr, Hdue, attempt_app, Hbefore.
    rewrite (sent_attempt_ok w cl before Hbefore). cbn [attempt]. now rewrite Hm. }
  split; [exact Hlog|].
  rewrite city_errors_count, Hlog, Hr, send_failures_of_app. cbn [is_failed].
  unfold send_failures_of at 2. cbn [filter snd negb map fst].
  rewrite length_app. cbn [List.length].
  assert (Hnone : send_failures_of (map (fun x => (x, true)) before) = []).
  { unfold send_failures_of. clear. induction before as [|x l IH]; [reflexivity|].
    cbn. exact IH. }
  rewrite Hnone. reflexivity.
Qed.

(** C4 (as amended).  A send that raises is caught and counted as one
    error: the loop body of its target returns the count raised by one,
    whatever the count and the state it started from, and the status line
    of a tick that reaches its end reports that one with the errors of the
    other targets.  It ends the publication of its target (the messages
    after it are not attempted) and nothing else: the targets before it
    are published in full order and the targets after it are attempted,
    as far as their answers let the loop go. *)
Theorem send_failure_ends_target_only (w : World) (a : App) (cl : UdpClient)
    (l1 l2 : list City) (c : City) (r : Reading)
    (before after : list OscMessage) (m : OscMessage) (e : exn) :
  running a = true ->
  table_built CITIES a = true ->
  tick_client w a = Some cl ->
  CITIES = l1 ++ c :: l2 ->
  forallb (city_ok w) l1 = true ->
  fetch_city_weather w c = Return (Some r) ->
  reading_ok r = true ->
  due_messages c r = before ++ m :: after ->
  first_error w cl before = None ->
  send_error w cl m = Some e ->
  (forall (n : Z) (s : App),
     table_built CITIES s = true ->
     fst (cycle_body w (Some cl) c n s) = Return (n + 1) /\
     osc_log (snd (cycle_body w (Some cl) c n s)) =
       osc_log s ++ map (fun x => (x, true)) before ++ [(m, false)]) /\
  osc_log (snd (_update_cycle w a)) =
    osc_log a ++ tick_log w (Some cl) l1
      ++ (map (fun x => (x, true)) before ++ [(m, false)])
      ++ tick_log w (Some cl) (served w l2) /\
  (forallb (city_ok w) l2 = true ->
   fst (_update_cycle w a) = Return tt /\
   served w l2 = l2 /\
   status_var (snd (_update_cycle w a)) =
     ("Update had "
        ++ decimal (errors_at w (Some cl) l1 + 1 + errors_at w (Some cl) l2)
        ++ " error(s) at " ++ strftime w "%H:%M:%S")%string).
Proof.
  intros Hrun Hb Hcl Hsplit H1 Hr Hrok Hdue Hbefore Hm.
  destruct (failed_send_log w cl c r before after m e Hr Hdue Hbefore Hm) as [Hlog Herr].
  assert (Hc : city_ok w c = true) by (unfold city_ok; now rewrite Hr).
  split; [|split].
  - intros n s Hs. rewrite Hsplit in Hs.
    destruct (row_of_target l1 l2 c s Hs) as (pre & old & post & Ht & Hi).
    rewrite (cycle_body_spec w (Some cl) c n s pre post old Hc Ht Hi), Hlog, Herr.
    split; reflexivity.
  - destruct (update_cycle_served w a Hrun Hb) as [_ Hl]. rewrite Hl, Hcl, Hsplit.
    rewrite (served_app w l1 (c :: l2) H1). cbn [served]. rewrite Hc.
    now rewrite tick_log_split, Hlog.
  - intros H2.
    assert (Hok : forallb (city_ok w) CITIES = true).
    { rewrite Hsplit, forallb_app. cbn [forallb]. now rewrite H1, Hc, H2. }
    rewrite (cycle_completes w a Hrun Hb Hok). cbn [fst snd].
    split; [reflexivity|]. split; [now apply served_all|].
    change (status_var (after_tick w CITIES a))
      with (status_line w (tick_errors w (tick_client w a) CITIES)).
    rewrite Hcl, Hsplit, tick_errors_split, Herr, !tick_errors_count.
    fold (errors_at w (Some cl) l1). fold (errors_at w (Some cl) l2).
    pose proof (errors_at_nonneg w (Some cl) l1).
    pose proof (errors_at_nonneg w (Some cl) l2).
    unfold status_line.
    destruct (errors_at w (Some cl) l1 + 1 + errors_at w (Some cl) l2 =? 0) eqn:E;
      [apply Z.eqb_eq in E; lia | reflexivity].
Qed.

Lemma send_failure_ends_target_only_witness :
  (forall (n : Z) (s : App),
     table_built CITIES s = true ->
     fst (cycle_body w_dropped (Some {| client_host := "127.0.0.1"; client_port := 9000 |})
            london n s) = Return (n + 1) /\
     osc_log (snd (cycle_body w_dropped
                     (Some {| client_host := "127.0.0.1"; client_port := 9000 |})
                     london n s)) =
       osc_log s ++ map (fun x => (x, true)) []
         ++ [({| address := "/ukweather/london/temperature";
                 arg := PyFloat.dec 152 1 |}, false)]) /\
  osc_log (snd (_update_cycle w_dropped running_app)) =
    osc_log running_app
      ++ tick_log w_dropped (Some {| client_host := "127.0.0.1"; client_port := 9000 |}) []
      ++ (map (fun x => (x, true)) []
            ++ [({| address := "/ukweather/london/temperature";
                    arg := PyFloat.dec 152 1 |}, false)])
      ++ tick_log w_dropped (Some {| client_host := "127.0.0.1"; client_port := 9000 |})
           (served w_dropped (tl CITIES)) /\
  (forallb (city_ok w_dropped) (tl CITIES) = true ->
   fst (_update_cycle w_dropped running_app) = Return tt /\
   served w_dropped (tl CITIES) = tl CITIES /\
   status_var (snd (_update_cycle w_dropped running_app)) =
     ("Update had "
        ++ decimal
             (errors_at w_dropped
                (Some {| client_host := "127.0.0.1"; client_port := 9000 |}) []
              + 1
              + errors_at w_dropped
                  (Some {| client_host := "127.0.0.1"; client_port := 9000 |}) (tl CITIES))
        ++ " error(s) at " ++ strftime w_dropped "%H:%M:%S")%string).
Proof.
  apply (send_failure_ends_target_only w_dropped running_app
           {| client_host := "127.0.0.1"; client_port := 9000 |}
           [] (tl CITIES) london sample_reading
           []
           [ {| address := "/ukweather/london/wind_speed"; arg := PyFloat.dec 94 1 |};
             {| address := "/ukweather/london/wind_dir_deg"; arg := PyFloat.of_Z 250 |} ]
           {| address := "/ukweather/london/temperature"; arg := PyFloat.dec 152 1 |}
           (Exn OSError "[Errno 101] Network is unreachable"));
    vm_compute; reflexivity.
Defined.

(** C4 as stated fails: London's temperature message cannot be sent; its
    wind speed and wind direction, which are present and would go out, are
    never attempted, while Manchester is published. *)
Lemma dropped_send_skips_rest_of_target :
  fetch_city_weather w_dropped london = Return (Some sample_reading) /\
  map (fun ev => (address (fst ev), snd ev))
      (firstn 2 (osc_log (snd (_update_cycle w_dropped running_app)))) =
    [ ("/ukweather/london/temperature"%string, false);
      ("/ukweather/manchester/temperature"%string, true) ] /\
  send_error w_dropped {| client_host := "127.0.0.1"; client_port := 9000 |}
    {| address := "/ukweather/london/wind_speed"; arg := PyFloat.dec 94 1 |} = None /\
  existsb (fun ev => String.eqb (address (fst ev)) "/ukweather/london/wind_speed")
    (osc_log (snd (_update_cycle w_dropped running_app))) = false /\
  existsb (fun ev => String.eqb (address (fst ev)) "/ukweather/london/wind_dir_deg")
    (osc_log (snd (_update_cycle w_dropped running_app))) = false.
Proof. vm_compute. repeat split. Qed.

(** C8.  The failing tick: the request for London times out, the answer
    for Manchester is a JSON list and the answer for Birmingham is a full
    reading.  The fetch for Manchester raises instead of returning the
    failed outcome, the exception leaves the loop, and Birmingham is never
    served: its row keeps the dash it was built with, no message goes
    out, no summary reaches the status line and no timer is armed. *)
Theorem malformed_answer_ends_tick_for_later_targets :
  fetch_city_weather w_down_then_garbled london = Return None /\
  fetch_city_weather w_down_then_garbled manchester = Raise (Exn AttributeError "") /\
  fetch_city_weather w_down_then_garbled birmingham = Return (Some sample_reading) /\
  nth_error CITIES 2 = Some birmingham /\
  fst (_update_cycle w_down_then_garbled running_app) = Raise (Exn AttributeError "") /\
  nth_error (tree (snd (_update_cycle w_down_then_garbled running_app))) 0
    = Some (err_row w_down_then_garbled london) /\
  nth_error (tree (snd (_update_cycle w_down_then_garbled running_app))) 2
    = Some (dash_row birmingham) /\
  osc_log (snd (_update_cycle w_down_then_garbled running_app)) = [] /\
  status_var (snd (_update_cycle w_down_then_garbled running_app))
    = status_var running_app /\
  timers (snd (_update_cycle w_down_then_garbled running_app)) = [].
Proof. vm_compute. repeat split. Qed.

(** X18.  A target is served in every tick that reaches it: when the
    targets before it answered within the data model, however many of
    them with a failed fetch, and its own answer is a reading of numbers,
    its row shows the reading and its messages are published, whatever
    the targets after it answer, also when one of them ends the cycle
    with an exception. *)
Theorem isolation_up_to_first_malformed (w : World) (a : App) (T' : City) (k : nat)
    (r : Reading) :
  running a = true ->
  table_built CITIES a = true ->
  nth_error CITIES k = Some T' ->
  forallb (city_ok w) (firstn k CITIES) = true ->
  fetch_city_weather w T' = Return (Some r) ->
  reading_ok r = true ->
  nth_error (tree (snd (_update_cycle w a))) k = Some (ok_row w T' r) /\
  exists before after,
    osc_log (snd (_update_cycle w a)) =
    osc_log a ++ before
      ++ match tick_client w a with
         | Some cl => attempt w cl (due_messages T' r)
         | None => []
         end ++ after.
Proof.
  intros Hrun Hb Hk H1 Hr Hrok.
  destruct (nth_error_split CITIES k Hk) as (l1 & l2 & Hs & Hlen).
  assert (Hf : firstn k (l1 ++ T' :: l2) = l1).
  { rewrite <- Hlen, firstn_app, Nat.sub_diag, firstn_all. cbn [firstn]. apply app_nil_r. }
  rewrite Hs, Hf in H1.
  assert (Hc : city_ok w T' = true) by (unfold city_ok; now rewrite Hr).
  destruct (update_cycle_served w a Hrun Hb) as [Ht Hl].
  assert (Hsv : served w CITIES = l1 ++ T' :: served w l2).
  { rewrite Hs, (served_app w l1 (T' :: l2) H1). cbn [served]. now rewrite Hc. }
  rewrite Ht, Hl, Hsv. split.
  - unfold rows_after. rewrite map_app. cbn [map]. rewrite <- app_assoc.
    rewrite nth_error_app2; rewrite length_map; [|lia].
    rewrite Hlen, Nat.sub_diag. cbn [app nth_error]. unfold row_for. now rewrite Hr.
  - exists (tick_log w (tick_client w a) l1), (tick_log w (tick_client w a) (served w l2)).
    rewrite tick_log_split. unfold city_log at 1. rewrite Hr.
    destruct (tick_client w a); reflexivity.
Qed.

Lemma isolation_up_to_first_malformed_witness :
  nth_error (tree (snd (_update_cycle w_garbled_later running_app))) 1
    = Some (ok_row w_garbled_later manchester sample_reading) /\
  exists before after,
    osc_log (snd (_update_cycle w_garbled_later running_app)) =
    osc_log running_app ++ before
      ++ match tick_client w_garbled_later running_app with
         | Some cl => attempt w_garbled_later cl (due_messages manchester sample_reading)
         | None => []
         end ++ after.
Proof.
  apply (isolation_up_to_first_malformed w_garbled_later running_app manchester 1
           sample_reading); vm_compute; reflexivity.
Defined.
